(** * train_ppi_baseline.py: graph-convolution and graph-attention baselines on PPI

    A shallow embedding of [train_ppi_baseline.py].  Tensor entries are real
    numbers, so rounding is outside the model; a tensor of rank one is a list
    of reals and a tensor of rank two carries its column count beside its
    rows, as [shape] does.  Python exceptions are values of [exception], and
    code that may raise returns a [result].  The calls into torch, dgl, numpy
    and sklearn whose bodies are not part of the script are either written
    out from their documented meaning (linear layers, softmax, leaky ReLU,
    matrix product, [dgl.batch], [np.concatenate], the batch size check of
    [DataLoader]) or collected in the class [Libraries] (graph convolution,
    the loss, the F1 scorer, autograd, the optimizer and the two dataset
    splits).  The functions that print, touch the weight file or mutate the
    model run in a state monad [M]; the state keeps a trace of the events of
    the run.  Device placement ([.to(device)]) is not modelled. *)

From Stdlib Require Import Reals Lra Lia ZArith String List.
From stdpp Require Import base list option.
Import ListNotations.

(** ** Exceptions *)

Inductive exception :=
| FileNotFoundError
| ValueError
| IndexError
| RuntimeError
| AttributeError.

Inductive result (A : Type) :=
| Ok (a : A)
| Raise (e : exception).
Arguments Ok {A} a.
Arguments Raise {A} e.

#[global] Instance result_ret : MRet result := fun A a => Ok a.
#[global] Instance result_bind : MBind result := fun A B f m =>
  match m with
  | Ok a => f a
  | Raise e => Raise e
  end.

(** A [for] loop that threads an accumulator and stops at the first exception. *)
Fixpoint foldlM {A B : Type} (f : A -> B -> result A) (a : A) (l : list B) : result A :=
  match l with
  | [] => Ok a
  | b :: l' => a' ← f a b; foldlM f a' l'
  end.

(** ** Tensors *)

Abbreviation Vector := (list R) (only parsing).

Record Matrix := Build_Matrix { ncols : nat; rows : list Vector }.

Definition nrows (m : Matrix) : nat := length (rows m).

(** Every row has the width the shape announces. *)
Definition Matrix_wf (m : Matrix) : Prop :=
  Forall (fun r => length r = ncols m) (rows m).

Definition Rsum (l : list R) : R := fold_right Rplus 0%R l.

Definition dot (a b : Vector) : R := Rsum (zip_with Rmult a b).

Definition matrix_map (f : R -> R) (m : Matrix) : Matrix :=
  {| ncols := ncols m; rows := map (map f) (rows m) |}.

(** [torch.zeros((n, m))] *)
Definition torch_zeros (n m : nat) : Matrix :=
  {| ncols := m; rows := replicate n (replicate m 0%R) |}.

(** [t[u]] for a tensor of rank two and a node id [u]. *)
Definition getitem (t : Matrix) (u : nat) : result Vector :=
  match rows t !! u with
  | Some r => Ok r
  | None => Raise IndexError
  end.

(** [t[u, v] = x] where [x] is a tensor of shape (1,): the single entry is
    copied into the slot; any other length cannot be broadcast into it. *)
Definition setitem (t : Matrix) (u v : nat) (x : Vector) : result Matrix :=
  match rows t !! u with
  | Some r =>
      if decide (v < ncols t) then
        match x with
        | [c] => Ok {| ncols := ncols t; rows := <[u := <[v := c]> r]> (rows t) |}
        | _ => Raise RuntimeError
        end
      else Raise IndexError
  | None => Raise IndexError
  end.

(** [torch.cat((a, b))] on tensors of rank one. *)
Definition torch_cat (a b : Vector) : Vector := a ++ b.

(** Column [j] of a matrix. *)
Definition column (m : Matrix) (j : nat) : Vector :=
  map (fun r => nth j r 0%R) (rows m).

(** [a.mm(b)] *)
Definition mm (a b : Matrix) : result Matrix :=
  if decide (ncols a = nrows b) then
    Ok {| ncols := ncols b;
          rows := map (fun r => map (fun j => dot r (column b j)) (seq 0 (ncols b))) (rows a) |}
  else Raise RuntimeError.

(** [F.leaky_relu(t, negative_slope)]: max(0, x) + negative_slope * min(0, x). *)
Definition leaky_relu1 (negative_slope x : R) : R :=
  (Rmax 0 x + negative_slope * Rmin 0 x)%R.

Definition F_leaky_relu (t : Matrix) (negative_slope : R) : Matrix :=
  matrix_map (leaky_relu1 negative_slope) t.

(** [F.softmax(t, dim=1)]: every row is normalised over all of its entries. *)
Definition softmax_row (r : Vector) : Vector :=
  map (fun x => (exp x / Rsum (map exp r))%R) r.

Definition F_softmax_dim1 (t : Matrix) : Matrix :=
  {| ncols := ncols t; rows := map softmax_row (rows t) |}.

(** ** [nn.Linear] *)

(** [weight] has shape (out_features, in_features), [bias] has length
    out_features. *)
Record Linear := Build_Linear { weight : Matrix; bias : Vector }.

Definition in_features (l : Linear) : nat := ncols (weight l).
Definition out_features (l : Linear) : nat := nrows (weight l).

(** The shapes [nn.Linear(i, o)] allocates. *)
Definition Linear_wf (i o : nat) (l : Linear) : Prop :=
  ncols (weight l) = i /\ nrows (weight l) = o /\ Matrix_wf (weight l) /\
  length (bias l) = o.

(** x W^T + b for one row [x]. *)
Definition affine (l : Linear) (x : Vector) : Vector :=
  zip_with (fun w b => (dot x w + b)%R) (rows (weight l)) (bias l).

(** The layer called on a tensor of rank one. *)
Definition Linear_call1 (l : Linear) (x : Vector) : result Vector :=
  if decide (length x = in_features l) then Ok (affine l x) else Raise RuntimeError.

(** The layer called on a tensor of rank two. *)
Definition Linear_call (l : Linear) (inputs : Matrix) : result Matrix :=
  if decide (ncols inputs = in_features l) then
    Ok {| ncols := out_features l; rows := map (affine l) (rows inputs) |}
  else Raise RuntimeError.

(** ** Graphs *)

(** A DGL graph: [all_edges] lists the (source, destination) pairs in edge-id
    order, as [zip( *g.all_edges())] yields them. *)
Record DGLGraph := Build_DGLGraph {
  number_of_nodes : nat;
  all_edges : list (nat * nat)
}.

(** Both ends of every edge are nodes of the graph. *)
Definition DGLGraph_wf (g : DGLGraph) : Prop :=
  Forall (fun e => fst e < number_of_nodes g /\ snd e < number_of_nodes g) (all_edges g).

(** ** GraphAttentionNetwork *)

Record GraphAttentionNetwork := Build_GraphAttentionNetwork {
  gat_training : bool;
  gat_g : option DGLGraph;
  input_F : nat;
  output_F : nat;
  input_slope : R;
  linear : Linear;
  attention : Linear;
  activation : Matrix -> Matrix
}.

(** [__init__]: the graph starts as [None]; the two linear layers are
    allocated with the shapes below (their initial entries are drawn at
    random by torch, so they are arguments here). *)
Definition GraphAttentionNetwork_init (input_F output_F : nat)
    (activation : Matrix -> Matrix) (input_slope : R)
    (linear0 attention0 : Linear) : GraphAttentionNetwork :=
  {| gat_training := true;
     gat_g := None;
     input_F := input_F;
     output_F := output_F;
     input_slope := input_slope;
     linear := linear0;
     attention := attention0;
     activation := activation |}.

Definition GraphAttentionNetwork_wf (self : GraphAttentionNetwork) : Prop :=
  Linear_wf (input_F self) (output_F self) (linear self) /\
  Linear_wf (2 * output_F self) 1 (attention self).

(** The body of the edge loop of [forward]. *)
Definition edge_step (self : GraphAttentionNetwork) (Wh : Matrix)
    (coeffs : Matrix) (e : nat * nat) : result Matrix :=
  let '(u, v) := e in
  Wh_u ← getitem Wh u;
  Wh_v ← getitem Wh v;
  coeff ← Linear_call1 (attention self) (torch_cat Wh_u Wh_v);
  coeffs ← setitem coeffs u v coeff;
  setitem coeffs v u coeff.

(** The coefficient matrix before the softmax: zeros, then the edge loop. *)
Definition edge_loop (self : GraphAttentionNetwork) (Wh : Matrix) (g : DGLGraph)
    : result Matrix :=
  let n_nodes := number_of_nodes g in
  let coeffs := torch_zeros n_nodes n_nodes in
  foldlM (edge_step self Wh) coeffs (all_edges g).

Definition GraphAttentionNetwork_forward (self : GraphAttentionNetwork)
    (inputs : Matrix) : result Matrix :=
  Wh ← Linear_call (linear self) inputs;
  g ← match gat_g self with
      | Some g => Ok g
      | None => Raise AttributeError
      end;
  coeffs ← edge_loop self Wh g;
  let alpha := F_softmax_dim1 (F_leaky_relu coeffs (input_slope self)) in
  out ← mm alpha Wh;
  Ok (activation self out).

Definition GraphAttentionNetwork_logits (self : GraphAttentionNetwork)
    (features : Matrix) : result Matrix :=
  GraphAttentionNetwork_forward self features.

(** ** numpy *)

(** [np.concatenate(arrays)] along axis 0: at least one array, all of the
    same width. *)
Definition np_concatenate (arrays : list Matrix) : result Matrix :=
  match arrays with
  | [] => Raise ValueError
  | a :: rest =>
      if forallb (fun b => ncols b =? ncols a) rest then
        Ok {| ncols := ncols a; rows := concat (map rows arrays) |}
      else Raise ValueError
  end.

(** [np.array(l).mean()].  On the empty list numpy answers nan, which the
    reals do not have; the model then gives 0 / 0. *)
Definition np_mean (l : list R) : R := (Rsum l / INR (length l))%R.

(** [np.where(t >= threshold, 1, 0)] *)
Definition np_where_ge (t : Matrix) (threshold : R) : Matrix :=
  matrix_map (fun x => if Rge_dec x threshold then 1%R else 0%R) t.

(** ** dgl.batch and the collation of samples *)

Definition shift_edge (offset : nat) (e : nat * nat) : nat * nat :=
  (offset + fst e, offset + snd e).

(** [dgl.batch(graphs)]: the disjoint union, the nodes of each graph
    renumbered after those of the graphs before it. *)
Definition batch (graphs : list DGLGraph) : DGLGraph :=
  fold_left
    (fun acc g =>
       {| number_of_nodes := number_of_nodes acc + number_of_nodes g;
          all_edges := all_edges acc ++ map (shift_edge (number_of_nodes acc)) (all_edges g) |})
    graphs
    {| number_of_nodes := 0; all_edges := [] |}.

(** One item of a dataset: (graph, features, labels). *)
Definition Sample : Type := DGLGraph * Matrix * Matrix.

Definition sample_graph (s : Sample) : DGLGraph := fst (fst s).
Definition sample_features (s : Sample) : Matrix := snd (fst s).
Definition sample_labels (s : Sample) : Matrix := snd s.

(** [collate_fn].  Unpacking [zip( *sample)] into three names fails on an
    empty list. *)
Definition collate_fn (sample : list Sample) : result Sample :=
  match sample with
  | [] => Raise ValueError
  | _ :: _ =>
      let graphs := map sample_graph sample in
      let features := map sample_features sample in
      let labels := map sample_labels sample in
      let graph := batch graphs in
      features ← np_concatenate features;
      labels ← np_concatenate labels;
      Ok (graph, features, labels)
  end.

(** ** Datasets and loaders *)

Record LegacyPPIDataset := Build_LegacyPPIDataset {
  graph : DGLGraph;
  features : Matrix;
  labels : Matrix;
  items : list Sample
}.

Record DataLoader := Build_DataLoader {
  dataset : LegacyPPIDataset;
  loader_batch_size : nat
}.

(** [DataLoader(dataset, batch_size=..., collate_fn=collate_fn)]: the batch
    sampler refuses a batch size that is not positive. *)
Definition DataLoader_init (ds : LegacyPPIDataset) (batch_size : Z) : result DataLoader :=
  if decide (batch_size <= 0)%Z then Raise ValueError
  else Ok {| dataset := ds; loader_batch_size := Z.to_nat batch_size |}.

Fixpoint chunks_fuel {A : Type} (fuel size : nat) (l : list A) : list (list A) :=
  match fuel with
  | 0 => []
  | S fuel' =>
      match l with
      | [] => []
      | _ :: _ => take size l :: chunks_fuel fuel' size (drop size l)
      end
  end.

(** Consecutive runs of [size] items, the last one possibly shorter. *)
Definition chunks {A : Type} (size : nat) (l : list A) : list (list A) :=
  chunks_fuel (length l) size l.

(** What iterating the loader yields: each chunk of the dataset, collated
    when it is fetched. *)
Definition DataLoader_iter (dl : DataLoader) : list (result Sample) :=
  map collate_fn (chunks (loader_batch_size dl) (items (dataset dl))).

(** [len(dl)] *)
Definition DataLoader_len (dl : DataLoader) : nat :=
  (length (items (dataset dl)) + loader_batch_size dl - 1) / loader_batch_size dl.

(** ** BasicGraphModel *)

(** The fields of a [dgl.nn.pytorch.GraphConv] layer that its call reads. *)
Record GraphConv := Build_GraphConv {
  conv_weight : Matrix;
  conv_bias : Vector;
  conv_activation : option (Matrix -> Matrix)
}.

(** A layer of the model: the DGL layer, and the attribute [g] that [logits]
    assigns on it. *)
Record Layer := Build_Layer {
  conv : GraphConv;
  layer_g : option DGLGraph
}.

Record BasicGraphModel := Build_BasicGraphModel {
  bgm_training : bool;
  bgm_g : DGLGraph;
  layers : list Layer
}.

(** ** Parameter snapshots *)

(** [state_dict()]: the parameters under their names, [layers.k.weight] and
    [layers.k.bias] for the convolution model, [linear.*] and [attention.*]
    for the attention model. *)
Inductive StateDict :=
| BGM_state (convs : list (Matrix * Vector))
| GAT_state (linear_weight : Matrix) (linear_bias : Vector)
            (attention_weight : Matrix) (attention_bias : Vector).

Inductive Model :=
| BGM (m : BasicGraphModel)
| GAT (m : GraphAttentionNetwork).

Definition same_shape (a b : Matrix) : bool :=
  (nrows a =? nrows b) && (ncols a =? ncols b).

Definition state_dict (m : Model) : StateDict :=
  match m with
  | BGM m => BGM_state (map (fun l => (conv_weight (conv l), conv_bias (conv l))) (layers m))
  | GAT m => GAT_state (weight (linear m)) (bias (linear m))
                       (weight (attention m)) (bias (attention m))
  end.

(** Copies one layer's parameters in, when the shapes agree. *)
Definition load_layer (l : Layer) (p : Matrix * Vector) : result Layer :=
  if same_shape (conv_weight (conv l)) (fst p)
     && (length (conv_bias (conv l)) =? length (snd p))
  then Ok {| conv := {| conv_weight := fst p; conv_bias := snd p;
                        conv_activation := conv_activation (conv l) |};
             layer_g := layer_g l |}
  else Raise RuntimeError.

Fixpoint load_layers (ls : list Layer) (ps : list (Matrix * Vector)) : result (list Layer) :=
  match ls, ps with
  | [], [] => Ok []
  | l :: ls', p :: ps' =>
      l' ← load_layer l p;
      rest ← load_layers ls' ps';
      Ok (l' :: rest)
  | _, _ => Raise RuntimeError
  end.

(** [model.load_state_dict(sd)]: keys that are missing or unexpected, and
    shapes that differ, are refused. *)
Definition load_state_dict (m : Model) (sd : StateDict) : result Model :=
  match m, sd with
  | BGM m, BGM_state ps =>
      ls ← load_layers (layers m) ps;
      Ok (BGM {| bgm_training := bgm_training m; bgm_g := bgm_g m; layers := ls |})
  | GAT m, GAT_state lw lb aw ab =>
      if same_shape (weight (linear m)) lw && (length (bias (linear m)) =? length lb)
         && same_shape (weight (attention m)) aw && (length (bias (attention m)) =? length ab)
      then Ok (GAT {| gat_training := gat_training m; gat_g := gat_g m;
                      input_F := input_F m; output_F := output_F m;
                      input_slope := input_slope m;
                      linear := {| weight := lw; bias := lb |};
                      attention := {| weight := aw; bias := ab |};
                      activation := activation m |})
      else Raise RuntimeError
  | _, _ => Raise RuntimeError
  end.

(** [model.g = subgraph] *)
Definition model_set_g (subgraph : DGLGraph) (m : Model) : Model :=
  match m with
  | BGM m => BGM {| bgm_training := bgm_training m; bgm_g := subgraph; layers := layers m |}
  | GAT m => GAT {| gat_training := gat_training m; gat_g := Some subgraph;
                    input_F := input_F m; output_F := output_F m;
                    input_slope := input_slope m; linear := linear m;
                    attention := attention m; activation := activation m |}
  end.

(** [model.train()] and [model.eval()] *)
Definition model_set_training (b : bool) (m : Model) : Model :=
  match m with
  | BGM m => BGM {| bgm_training := b; bgm_g := bgm_g m; layers := layers m |}
  | GAT m => GAT {| gat_training := b; gat_g := gat_g m;
                    input_F := input_F m; output_F := output_F m;
                    input_slope := input_slope m; linear := linear m;
                    attention := attention m; activation := activation m |}
  end.

Definition model_g (m : Model) : option DGLGraph :=
  match m with
  | BGM m => Some (bgm_g m)
  | GAT m => gat_g m
  end.

Definition model_training (m : Model) : bool :=
  match m with
  | BGM m => bgm_training m
  | GAT m => gat_training m
  end.

(** ** The libraries the script calls *)

(** What the script takes from dgl, torch and sklearn without its body being
    part of the repository.  [GraphConv_call] is DGL's graph convolution
    [layer(graph, feat)]; it reads the layer's own fields and the graph it
    is handed.  [autograd_backward] stands for [loss.backward()]: the
    gradient, at the current parameters, of the loss seen as a function of
    the parameters.  [optimizer_step] is [optimizer.step()].  The datasets
    are what [LegacyPPIDataset(mode=...)] loads. *)
Class Libraries := Build_Libraries {
  GraphConv_init : nat -> nat -> option (Matrix -> Matrix) -> GraphConv;
  GraphConv_call : GraphConv -> DGLGraph -> Matrix -> result Matrix;
  Linear_init : nat -> nat -> Linear;
  F_elu : Matrix -> Matrix;
  BCEWithLogitsLoss : Matrix -> Matrix -> result R;
  f1_score_micro : Matrix -> Matrix -> result R;
  Grads : Type;
  Optimizer : Type;
  Adam : StateDict -> Optimizer;
  autograd_backward : (StateDict -> result R) -> StateDict -> Grads;
  optimizer_step : Optimizer -> Grads -> StateDict -> Optimizer * StateDict;
  PPI_train : LegacyPPIDataset;
  PPI_test : LegacyPPIDataset
}.

Section script.
Context `{L : Libraries}.

(** [BasicGraphModel.__init__] *)
Definition BasicGraphModel_init (g : DGLGraph) (n_layers input_size hidden_size
    output_size : nat) (nonlinearity : Matrix -> Matrix) : BasicGraphModel :=
  let layer c := {| conv := c; layer_g := None |} in
  {| bgm_training := true;
     bgm_g := g;
     layers :=
       [layer (GraphConv_init input_size hidden_size (Some nonlinearity))]
       ++ replicate (n_layers - 1)
            (layer (GraphConv_init hidden_size hidden_size (Some nonlinearity)))
       ++ [layer (GraphConv_init hidden_size output_size None)] |}.

(** [BasicGraphModel.forward]: every layer is called with the model's graph. *)
Definition BasicGraphModel_forward (self : BasicGraphModel) (inputs : Matrix)
    : result Matrix :=
  foldlM (fun outputs layer => GraphConv_call (conv layer) (bgm_g self) outputs)
         inputs (layers self).

(** [BasicGraphModel.logits]: assigns the graph on every layer, then runs
    the forward pass of the model so updated.  The updated model is returned
    beside the output. *)
Definition BasicGraphModel_logits (self : BasicGraphModel) (features : Matrix)
    : BasicGraphModel * result Matrix :=
  let self' :=
    {| bgm_training := bgm_training self;
       bgm_g := bgm_g self;
       layers := map (fun layer => {| conv := conv layer; layer_g := Some (bgm_g self) |})
                     (layers self) |} in
  (self', BasicGraphModel_forward self' features).

(** [model.logits(features)] on whichever model [model] is. *)
Definition Model_logits (m : Model) (features : Matrix) : Model * result Matrix :=
  match m with
  | BGM m => let '(m', out) := BasicGraphModel_logits m features in (BGM m', out)
  | GAT m => (GAT m, GraphAttentionNetwork_logits m features)
  end.

(** ** The state of a run *)

(** What a run leaves behind, in order: the lines it prints, the forward
    passes (with the gradient mode, the training flag and the graph in
    force), and the accesses to the weight file. *)
Inductive Event :=
| Print_len_loader (n : nat)
| Print_batch (batch : nat)
| Print_epoch (epoch : nat) (loss_data : R)
| Print_F1_periodic (f1 : R)
| Print_testing
| Print_F1_test (f1 : R)
| Forward_pass (grad_enabled training : bool) (g : option DGLGraph)
| Torch_save (sd : StateDict)
| Torch_load (found : option StateDict).

(** The module [model] refers to, the optimizer, torch's gradient mode, the
    content of [MODEL_STATE_FILE] (if the file exists) and the events so far. *)
Record State := Build_State {
  model : Model;
  optimizer : Optimizer;
  grad_enabled : bool;
  model_state_file : option StateDict;
  trace : list Event
}.

(** A computation: it always leaves a state, and returns or raises. *)
Definition M (A : Type) : Type := State -> State * result A.

#[global] Instance M_ret : MRet M := fun A a s => (s, Ok a).
#[global] Instance M_bind : MBind M := fun A B f m s =>
  match m s with
  | (s', Ok a) => f a s'
  | (s', Raise e) => (s', Raise e)
  end.

Definition lift {A : Type} (r : result A) : M A := fun s => (s, r).

Definition set_model (m : Model) (s : State) : State :=
  {| model := m; optimizer := optimizer s; grad_enabled := grad_enabled s;
     model_state_file := model_state_file s; trace := trace s |}.

Definition set_optimizer (o : Optimizer) (s : State) : State :=
  {| model := model s; optimizer := o; grad_enabled := grad_enabled s;
     model_state_file := model_state_file s; trace := trace s |}.

Definition set_grad_enabled (b : bool) (s : State) : State :=
  {| model := model s; optimizer := optimizer s; grad_enabled := b;
     model_state_file := model_state_file s; trace := trace s |}.

Definition set_model_state_file (sd : StateDict) (s : State) : State :=
  {| model := model s; optimizer := optimizer s; grad_enabled := grad_enabled s;
     model_state_file := Some sd; trace := trace s |}.

Definition add_event (e : Event) (s : State) : State :=
  {| model := model s; optimizer := optimizer s; grad_enabled := grad_enabled s;
     model_state_file := model_state_file s; trace := trace s ++ [e] |}.

Definition emit (e : Event) : M unit := fun s => (add_event e s, Ok tt).

Definition get_model : M Model := fun s => (s, Ok (model s)).

Definition put_model (m : Model) : M unit := fun s => (set_model m s, Ok tt).

Definition get_optimizer : M Optimizer := fun s => (s, Ok (optimizer s)).

Definition put_optimizer (o : Optimizer) : M unit := fun s => (set_optimizer o s, Ok tt).

Definition is_grad_enabled : M bool := fun s => (s, Ok (grad_enabled s)).

(** [with torch.no_grad():] the mode is switched off for the body and
    restored when the block is left, also by an exception. *)
Definition no_grad {A : Type} (body : M A) : M A := fun s =>
  let prev := grad_enabled s in
  let '(s', r) := body (set_grad_enabled false s) in
  (set_grad_enabled prev s', r).

(** [torch.save(sd, MODEL_STATE_FILE)] *)
Definition torch_save (sd : StateDict) : M unit := fun s =>
  (add_event (Torch_save sd) (set_model_state_file sd s), Ok tt).

(** [torch.load(MODEL_STATE_FILE)] *)
Definition torch_load : M StateDict := fun s =>
  (add_event (Torch_load (model_state_file s)) s,
   match model_state_file s with
   | Some sd => Ok sd
   | None => Raise FileNotFoundError
   end).

(** A [for] loop over a list that collects what each turn returns. *)
Fixpoint forM {A B : Type} (f : A -> M B) (l : list A) : M (list B) :=
  match l with
  | [] => mret []
  | a :: l' => b ← f a; bs ← forM f l'; mret (b :: bs)
  end.

Definition enumerate {A : Type} (l : list A) : list (nat * A) :=
  combine (seq 0 (length l)) l.

(** [model.logits(features)] on the module of the state. *)
Definition model_logits (features : Matrix) : M Matrix :=
  m ← get_model;
  grad ← is_grad_enabled;
  emit (Forward_pass grad (model_training m) (model_g m));;
  let '(m', out) := Model_logits m features in
  put_model m';;
  lift out.

(** ** evaluate *)

Definition evaluate (features : Matrix) (subgraph : DGLGraph) (labels : Matrix)
    (loss_fcn : Matrix -> Matrix -> result R) : M (R * R) :=
  no_grad (
    m ← get_model;
    put_model (model_set_training false m);;
    m ← get_model;
    put_model (model_set_g subgraph m);;
    output ← model_logits features;
    loss_data ← lift (loss_fcn output labels);
    let predict := np_where_ge output (1 / 2) in
    score ← lift (f1_score_micro labels predict);
    mret (score, loss_data)).

(** ** train *)

(** One turn of the loop over the mini-batches. *)
Definition train_batch (loss_fcn : Matrix -> Matrix -> result R)
    (turn : nat * result Sample) : M R :=
  let '(batch, data) := turn in
  data ← lift data;
  emit (Print_batch batch);;
  let '(subgraph, features, labels) := data in
  m ← get_model;
  put_model (model_set_g subgraph m);;
  logits ← model_logits features;
  loss ← lift (loss_fcn logits labels);
  m ← get_model;
  let objective sd :=
    m' ← load_state_dict m sd;
    out ← snd (Model_logits m' features);
    loss_fcn out labels in
  let grads := autograd_backward objective (state_dict m) in
  o ← get_optimizer;
  let '(o', sd') := optimizer_step o grads (state_dict m) in
  m' ← lift (load_state_dict m sd');
  put_model m';;
  put_optimizer o';;
  mret loss.

(** One turn of the loop over the test dataset inside [train]. *)
Definition evaluation_turn (loss_fcn : Matrix -> Matrix -> result R)
    (test_data : Sample) : M R :=
  let '(subgraph, features, labels) := test_data in
  r ← evaluate features subgraph labels loss_fcn;
  mret (fst r).

(** The evaluation that closes every fifth epoch: the items of the test
    dataset, one after the other. *)
Definition periodic_evaluation (loss_fcn : Matrix -> Matrix -> result R)
    (test_dataset : LegacyPPIDataset) : M unit :=
  scores ← forM (evaluation_turn loss_fcn) (items test_dataset);
  emit (Print_F1_periodic (np_mean scores)).

(** The body of the loop over the epochs. *)
Definition train_epoch (loss_fcn : Matrix -> Matrix -> result R)
    (train_dataloader : DataLoader) (test_dataset : LegacyPPIDataset)
    (epoch : nat) : M unit :=
  m ← get_model;
  put_model (model_set_training true m);;
  emit (Print_len_loader (DataLoader_len train_dataloader));;
  losses ← forM (train_batch loss_fcn) (enumerate (DataLoader_iter train_dataloader));
  let loss_data := np_mean losses in
  emit (Print_epoch (epoch + 1) loss_data);;
  if epoch mod 5 =? 0 then periodic_evaluation loss_fcn test_dataset
  else mret tt.

(** [train]; [epochs] is [args.epochs], which the function reads from the
    module's global [args]. *)
Definition train (loss_fcn : Matrix -> Matrix -> result R)
    (train_dataloader : DataLoader) (test_dataset : LegacyPPIDataset)
    (epochs : Z) : M unit :=
  forM (train_epoch loss_fcn train_dataloader test_dataset) (seq 0 (Z.to_nat epochs));;
  mret tt.

(** ** test *)

(** One turn of the loop over the test loader. *)
Definition test_turn (loss_fcn : Matrix -> Matrix -> result R)
    (turn : nat * result Sample) : M R :=
  test_data ← lift (snd turn);
  let '(subgraph, features, labels) := test_data in
  r ← evaluate features subgraph labels loss_fcn;
  mret (fst r).

Definition test (loss_fcn : Matrix -> Matrix -> result R)
    (test_dataloader : DataLoader) : M R :=
  emit Print_testing;;
  test_scores ← forM (test_turn loss_fcn) (enumerate (DataLoader_iter test_dataloader));
  let mean_scores := np_mean test_scores in
  emit (Print_F1_test (np_mean test_scores));;
  mret mean_scores.

(** ** main *)

Record Args := Build_Args {
  args_mode : string;
  args_gpu : Z;
  args_epochs : Z;
  args_batch_size : Z;
  args_model : string
}.

(** The model that [main] builds from [--model]. *)
Definition construct_model (args : Args) (train_dataset : LegacyPPIDataset)
    (n_features n_classes : nat) : Model :=
  if String.eqb (args_model args) "BGM" then
    BGM (BasicGraphModel_init (graph train_dataset) 2 n_features 256 n_classes F_elu)
  else
    GAT (GraphAttentionNetwork_init n_features n_classes F_elu (2 / 10)
           (Linear_init n_features n_classes) (Linear_init (2 * n_classes) 1)).

(** The block [# train and test] that closes [main]. *)
Definition train_and_test (args : Args) (loss_fcn : Matrix -> Matrix -> result R)
    (train_dataloader test_dataloader : DataLoader) (test_dataset : LegacyPPIDataset)
    : M R :=
  (if String.eqb (args_mode args) "train" then
     train loss_fcn train_dataloader test_dataset (args_epochs args);;
     m ← get_model;
     torch_save (state_dict m)
   else mret tt);;
  sd ← torch_load;
  m ← get_model;
  m' ← lift (load_state_dict m sd);
  put_model m';;
  test loss_fcn test_dataloader.

Definition main (args : Args) : M R :=
  let train_dataset := PPI_train in
  let test_dataset := PPI_test in
  train_dataloader ← lift (DataLoader_init train_dataset (args_batch_size args));
  test_dataloader ← lift (DataLoader_init test_dataset (args_batch_size args));
  let n_features := ncols (features train_dataset) in
  let n_classes := ncols (labels train_dataset) in
  let model := construct_model args train_dataset n_features n_classes in
  put_model model;;
  let loss_fcn := BCEWithLogitsLoss in
  put_optimizer (Adam (state_dict model));;
  train_and_test args loss_fcn train_dataloader test_dataloader test_dataset.

(** ** An epoch of [train], as the specification words it *)

(** From [s] to [s']: the mini-batches are trained in order, the mean of
    their losses is printed under the number [epoch + 1], and, when [epoch]
    is a multiple of five and only then, every item of the test dataset is
    evaluated on its own and the mean of the scores is printed. *)
Definition epoch_run (loss_fcn : Matrix -> Matrix -> result R)
    (train_dataloader : DataLoader) (test_dataset : LegacyPPIDataset)
    (epoch : nat) (s s' : State) : Prop :=
  exists losses s1,
    forM (train_batch loss_fcn) (enumerate (DataLoader_iter train_dataloader))
         (add_event (Print_len_loader (DataLoader_len train_dataloader))
                    (set_model (model_set_training true (model s)) s))
      = (s1, Ok losses) /\
    length losses = length (DataLoader_iter train_dataloader) /\
    (epoch mod 5 = 0 ->
       exists scores s2,
         forM (evaluation_turn loss_fcn) (items test_dataset)
              (add_event (Print_epoch (epoch + 1) (np_mean losses)) s1)
           = (s2, Ok scores) /\
         length scores = length (items test_dataset) /\
         s' = add_event (Print_F1_periodic (np_mean scores)) s2) /\
    (epoch mod 5 <> 0 ->
       s' = add_event (Print_epoch (epoch + 1) (np_mean losses)) s1).

(** ** What a computation leaves untouched *)

Definition is_BGM (m : Model) : bool :=
  match m with
  | BGM _ => true
  | GAT _ => false
  end.

(** The events of everything that runs before the final evaluation. *)
Definition not_testing (e : Event) : Prop := e <> Print_testing.

(** [c] keeps the kind [k] of the model, adds to the trace only events that
    satisfy [P], and returns only values that satisfy [Q]. *)
Definition respects (k : bool) (P : Event -> Prop) {A : Type} (c : M A)
    (Q : A -> Prop) : Prop :=
  forall s, is_BGM (model s) = k ->
    is_BGM (model (fst (c s))) = k /\
    (exists evs, trace (fst (c s)) = trace s ++ evs /\ Forall P evs) /\
    forall a, snd (c s) = Ok a -> Q a.

End script.

(** ** Reading a tensor entry by entry *)

Definition row (t : Matrix) (i : nat) : list R := nth i (rows t) [].

Definition entry (t : Matrix) (i j : nat) : R := nth j (row t i) 0%R.

(** The [n] by [m] matrix whose entry (i, j) is [f i j]. *)
Definition tabulate (n m : nat) (f : nat -> nat -> R) : Matrix :=
  {| ncols := m; rows := map (fun i => map (f i) (seq 0 m)) (seq 0 n) |}.

Definition square (n : nat) (t : Matrix) : Prop :=
  ncols t = n /\ nrows t = n /\ Matrix_wf t.

(** The edge [e] joins [i] and [j], in one direction or the other. *)
Definition joins (e : nat * nat) (i j : nat) : Prop :=
  e = (i, j) \/ e = (j, i).

#[global] Instance joins_dec e i j : Decision (joins e i j).
Proof. unfold joins. apply _. Defined.

(** The scalar the attention layer gives for the rows [u] and [v] of [Wh]. *)
Definition score (self : GraphAttentionNetwork) (Wh : Matrix) (u v : nat) : R :=
  nth 0 (affine (attention self) (torch_cat (row Wh u) (row Wh v))) 0%R.

(** ** The forward pass of the attention model, as the specification words it *)

Section attention_spec.
Variables (self : GraphAttentionNetwork) (g : DGLGraph) (X : Matrix).

(** 1. The projection: Wh[j][o] = sum_k X[j][k] * W[o][k] + b[o]. *)
Definition spec_Wh (j o : nat) : R :=
  (dot (row X j) (row (weight (linear self)) o) + nth o (bias (linear self)) 0)%R.

(** 2. The score of an edge (u, v): the attention map on Wh[u] ++ Wh[v]. *)
Definition spec_score (u v : nat) : R :=
  (dot (torch_cat (map (spec_Wh u) (seq 0 (output_F self)))
                  (map (spec_Wh v) (seq 0 (output_F self))))
       (row (weight (attention self)) 0)
   + nth 0 (bias (attention self)) 0)%R.

(** Writing the score of [e] to both mirrored entries of [c]. *)
Definition spec_assign (c : nat -> nat -> R) (e : nat * nat) : nat -> nat -> R :=
  fun i j => if decide (joins e i j) then spec_score (fst e) (snd e) else c i j.

(** The coefficients: all zero, then one assignment per edge, in order. *)
Definition spec_coeffs : nat -> nat -> R :=
  fold_left spec_assign (all_edges g) (fun _ _ => 0%R).

(** 3. Leaky rectifier entrywise, then the softmax over the whole row: the
    sum ranges over every node [k]. *)
Definition spec_alpha (i j : nat) : R :=
  (exp (leaky_relu1 (input_slope self) (spec_coeffs i j)) /
   Rsum (map (fun k => exp (leaky_relu1 (input_slope self) (spec_coeffs i k)))
             (seq 0 (number_of_nodes g))))%R.

(** 4. The activation of alpha times Wh. *)
Definition spec_forward : Matrix :=
  activation self
    (tabulate (number_of_nodes g) (output_F self)
       (fun i o => Rsum (map (fun j => (spec_alpha i j * spec_Wh j o)%R)
                             (seq 0 (number_of_nodes g))))).

End attention_spec.

(** The attention matrix that gives every node the weight 1 / n. *)
Definition uniform_attention (n : nat) : Matrix :=
  {| ncols := n; rows := replicate n (replicate n (1 / INR n)%R) |}.

(** The graph [g] with its edges listed in another order. *)
Definition with_edges (g : DGLGraph) (edges : list (nat * nat)) : DGLGraph :=
  {| number_of_nodes := number_of_nodes g; all_edges := edges |}.

(** ** Samples as the data model has them *)

(** Features and labels have one row per node of the graph. *)
Definition sample_wf (s : Sample) : Prop :=
  nrows (sample_features s) = number_of_nodes (sample_graph s) /\
  nrows (sample_labels s) = number_of_nodes (sample_graph s).

Definition node_counts (sample : list Sample) : list nat :=
  map (fun s => number_of_nodes (sample_graph s)) sample.

(** ** The blocks of a batched graph *)

(** The edges of the graphs, each list renumbered from [offset] on. *)
Fixpoint shifted_edges (offset : nat) (graphs : list DGLGraph) : list (nat * nat) :=
  match graphs with
  | [] => []
  | g :: graphs' =>
      map (shift_edge offset) (all_edges g)
      ++ shifted_edges (offset + number_of_nodes g) graphs'
  end.

(** Both ends of [e] are nodes of the [i]-th graph of a batch. *)
Definition in_block (graphs : list DGLGraph) (i : nat) (e : nat * nat) : Prop :=
  exists g, graphs !! i = Some g /\
    let offset := sum_list (map number_of_nodes (take i graphs)) in
    (offset <= fst e < offset + number_of_nodes g) /\
    (offset <= snd e < offset + number_of_nodes g).

(** The feature rows, or the label rows, of a list of samples, in order. *)
Definition all_rows (part : Sample -> Matrix) (samples : list Sample) : list Vector :=
  concat (map (fun s => rows (part s)) samples).

(** ** Models up to what a forward pass assigns *)

(** A model without what a forward pass assigns on it: the graph, the
    attribute [g] of the layers and the training flag.  What is left are the
    parameters and the architecture. *)
Definition detach (m : Model) : Model :=
  match m with
  | BGM m => BGM {| bgm_training := true;
                    bgm_g := {| number_of_nodes := 0; all_edges := [] |};
                    layers := map (fun l => {| conv := conv l; layer_g := None |}) (layers m) |}
  | GAT m => GAT {| gat_training := true; gat_g := None;
                    input_F := input_F m; output_F := output_F m;
                    input_slope := input_slope m; linear := linear m;
                    attention := attention m; activation := activation m |}
  end.

(** ** The events of a run, without the numbers it prints *)

(** An event without the number it prints. *)
Definition erase (e : Event) : Event :=
  match e with
  | Print_epoch epoch _ => Print_epoch epoch 0
  | Print_F1_periodic _ => Print_F1_periodic 0
  | Print_F1_test _ => Print_F1_test 0
  | _ => e
  end.

(** The events of one pass over the training loader: for every mini-batch
    its index, then a forward pass in training mode on the batched graph. *)
Definition batch_events (grad : bool) (train_dataloader : DataLoader) : list Event :=
  concat (map (fun turn : nat * result Sample =>
                 match snd turn with
                 | Ok data => [Print_batch (fst turn);
                               Forward_pass grad true (Some (sample_graph data))]
                 | Raise _ => []
                 end)
              (enumerate (DataLoader_iter train_dataloader))).

(** One forward pass per sample, in evaluation mode and without gradients. *)
Definition evaluation_events (samples : list Sample) : list Event :=
  map (fun s => Forward_pass false false (Some (sample_graph s))) samples.

Definition epoch_events (grad : bool) (train_dataloader : DataLoader)
    (test_dataset : LegacyPPIDataset) (epoch : nat) : list Event :=
  Print_len_loader (DataLoader_len train_dataloader)
  :: batch_events grad train_dataloader
  ++ Print_epoch (epoch + 1) 0
  :: (if epoch mod 5 =? 0
      then evaluation_events (items test_dataset) ++ [Print_F1_periodic 0]
      else []).

Definition train_events (grad : bool) (train_dataloader : DataLoader)
    (test_dataset : LegacyPPIDataset) (epochs : Z) : list Event :=
  concat (map (epoch_events grad train_dataloader test_dataset)
              (seq 0 (Z.to_nat epochs))).

(** The events of an evaluation: the two lines [test] prints, a read of the
    weight file, and forward passes in evaluation mode without gradients. *)
Definition evaluation_only (e : Event) : Prop :=
  match e with
  | Print_testing | Print_F1_test _ | Torch_load _ | Forward_pass false false _ => True
  | _ => False
  end.

(** ** What a run leaves as it found it *)

Section run_invariants.
Context `{L : Libraries}.

(** What an evaluation leaves as it found it: the parameters, the optimizer,
    the weight file and the gradient mode. *)
Definition frozen (s0 s : State) : Prop :=
  state_dict (model s) = state_dict (model s0) /\
  optimizer s = optimizer s0 /\
  model_state_file s = model_state_file s0 /\
  grad_enabled s = grad_enabled s0.

(** What training leaves as it found it: the weight file and the gradient
    mode. *)
Definition same_file_and_mode (s0 s : State) : Prop :=
  model_state_file s = model_state_file s0 /\
  grad_enabled s = grad_enabled s0.

(** [c] keeps [I], whether it returns or raises. *)
Definition stable (I : State -> Prop) {A : Type} (c : M A) : Prop :=
  forall s, I s -> I (fst (c s)).

Definition run_log (s : State) : list Event := map erase (trace s).

(** [c] appends to the trace, and only events that satisfy [P], whether it
    returns or raises. *)
Definition adds (P : Event -> Prop) {A : Type} (c : M A) : Prop :=
  forall s, exists evs, trace (fst (c s)) = trace s ++ evs /\ Forall P evs.

(** Two states that a training step cannot tell apart. *)
Definition same_learner (s_a s_b : State) : Prop :=
  detach (model s_a) = detach (model s_b) /\ optimizer s_a = optimizer s_b.

End run_invariants.

(** ** Small inputs *)

Definition returns {A : Type} (r : result A) : bool :=
  match r with
  | Ok _ => true
  | Raise _ => false
  end.

(** The kind of an event, without the numbers it carries. *)
Definition event_kind {L : Libraries} (e : Event) : string :=
  match e with
  | Print_len_loader _ => "len loader"
  | Print_batch _ => "batch"
  | Print_epoch _ _ => "Epoch"
  | Print_F1_periodic _ => "F1-Score (train)"
  | Print_testing => "-- Testing"
  | Print_F1_test _ => "F1-Score (test)"
  | Forward_pass grad _ _ => if grad then "forward" else "forward (no_grad)"
  | Torch_save _ => "save"
  | Torch_load _ => "load"
  end.

Definition example_graph : DGLGraph :=
  {| number_of_nodes := 3; all_edges := [(0, 1); (1, 0); (1, 2)] |}.

Definition example_isolated : DGLGraph :=
  {| number_of_nodes := 3; all_edges := [] |}.

Definition example_features : Matrix :=
  {| ncols := 2; rows := [[1; 0]; [0; 1]; [1; 1]]%R |}.

Definition example_labels : Matrix :=
  {| ncols := 2; rows := [[1; 0]; [0; 0]; [1; 1]]%R |}.

Definition example_gat (g : option DGLGraph) : GraphAttentionNetwork :=
  {| gat_training := true;
     gat_g := g;
     input_F := 2;
     output_F := 2;
     input_slope := (2 / 10)%R;
     linear := {| weight := {| ncols := 2; rows := [[1; 0]; [0; 1]]%R |}; bias := [0; 0]%R |};
     attention := {| weight := {| ncols := 4; rows := [[1; 1; 1; 1]]%R |}; bias := [0]%R |};
     activation := fun t => t |}.

(** An attention layer that reads only the first coordinate of the source
    node, so that the score of (u, v) and that of (v, u) differ. *)
Definition example_directed : GraphAttentionNetwork :=
  {| gat_training := true;
     gat_g := Some example_graph;
     input_F := 2;
     output_F := 2;
     input_slope := (2 / 10)%R;
     linear := {| weight := {| ncols := 2; rows := [[1; 0]; [0; 1]]%R |}; bias := [0; 0]%R |};
     attention := {| weight := {| ncols := 4; rows := [[1; 0; 0; 0]]%R |}; bias := [0]%R |};
     activation := fun t => t |}.

(** A graph convolution without normalisation: h = feat W, then every node
    sums h over its in-edges, adds the bias and applies the activation. *)
Definition example_GraphConv_call (c : GraphConv) (g : DGLGraph) (feat : Matrix)
    : result Matrix :=
  h ← mm feat (conv_weight c);
  let agg := tabulate (number_of_nodes g) (ncols h)
               (fun v k => (Rsum (map (fun e : nat * nat =>
                                         if snd e =? v then entry h (fst e) k else 0%R)
                                      (all_edges g))
                            + nth k (conv_bias c) 0)%R) in
  Ok (match conv_activation c with
      | Some a => a agg
      | None => agg
      end).

Definition example_elu (t : Matrix) : Matrix :=
  matrix_map (fun x => if Rlt_dec 0 x then x else (exp x - 1)%R) t.

(** Binary cross-entropy on logits, averaged over all entries. *)
Definition example_BCEWithLogitsLoss (output target : Matrix) : result R :=
  if same_shape output target then
    Ok (np_mean (zip_with (fun x y => (Rmax x 0 - x * y + ln (1 + exp (- Rabs x)))%R)
                          (concat (rows output)) (concat (rows target))))
  else Raise ValueError.

(** 2 TP / (2 TP + FP + FN) over all entries, 0 when the denominator is 0. *)
Definition example_f1_score_micro (y_true y_pred : Matrix) : result R :=
  if same_shape y_true y_pred then
    let t := concat (rows y_true) in
    let p := concat (rows y_pred) in
    let tp := Rsum (zip_with Rmult t p) in
    let fp := Rsum (zip_with (fun y q => ((1 - y) * q)%R) t p) in
    let fn := Rsum (zip_with (fun y q => (y * (1 - q))%R) t p) in
    Ok (if Req_dec_T (2 * tp + fp + fn) 0 then 0%R
        else (2 * tp / (2 * tp + fp + fn))%R)
  else Raise ValueError.

Definition example_dataset : LegacyPPIDataset :=
  {| graph := example_graph;
     features := example_features;
     labels := example_labels;
     items := [(example_graph, example_features, example_labels);
               (example_isolated, example_features, example_labels)] |}.

(** The libraries with parameters that start at zero and an optimizer that
    leaves them where they are. *)
Definition example_libraries : Libraries :=
  {| GraphConv_init := fun i o a =>
       {| conv_weight := torch_zeros i o; conv_bias := replicate o 0%R;
          conv_activation := a |};
     GraphConv_call := example_GraphConv_call;
     Linear_init := fun i o =>
       {| weight := torch_zeros o i; bias := replicate o 0%R |};
     F_elu := example_elu;
     BCEWithLogitsLoss := example_BCEWithLogitsLoss;
     f1_score_micro := example_f1_score_micro;
     Grads := unit;
     Optimizer := unit;
     Adam := fun _ => tt;
     autograd_backward := fun _ _ => tt;
     optimizer_step := fun o _ sd => (o, sd);
     PPI_train := example_dataset;
     PPI_test := example_dataset |}.

Definition example_state (file : option StateDict) : State (L := example_libraries) :=
  @Build_State example_libraries (GAT (example_gat None)) tt true file [].

Definition example_args (mode model : string) : Args :=
  {| args_mode := mode; args_gpu := (-1)%Z; args_epochs := 6%Z;
     args_batch_size := 2%Z; args_model := model |}.


(** A graph of three nodes in which node 2 has no edge. *)
Definition example_pair : DGLGraph :=
  {| number_of_nodes := 3; all_edges := [(0, 1)] |}.

Definition example_loader : DataLoader :=
  {| dataset := example_dataset; loader_batch_size := 2 |}.

(** The small dataset without its items: nothing to evaluate on. *)
Definition example_no_items : LegacyPPIDataset :=
  {| graph := example_graph; features := example_features; labels := example_labels;
     items := [] |}.

(** A sample whose features have three columns. *)
Definition example_wide : Sample :=
  (example_isolated,
   {| ncols := 3; rows := [[1; 0; 0]; [0; 1; 0]; [0; 0; 1]]%R |},
   example_labels).

Definition example_args_no_epochs : Args :=
  {| args_mode := "train"; args_gpu := (-1)%Z; args_epochs := 0%Z;
     args_batch_size := 2%Z; args_model := "GAT" |}.

(** * Facts about tensors and the attention model *)

Lemma result_bind_Ok {A B} (m : result A) (f : A -> result B) b :
  m ≫= f = Ok b -> exists a, m = Ok a /\ f a = Ok b.
Proof. destruct m as [a|e]; simpl; [eauto | discriminate]. Qed.

Lemma nth_lookup_Some {A} (l : list A) i d x : l !! i = Some x -> nth i l d = x.
Proof.
  revert i; induction l as [|y l IH]; intros [|i]; simpl; try discriminate.
  - congruence.
  - apply IH.
Qed.

Lemma nth_insert {A} (l : list A) i j x d :
  i < length l -> nth j (<[i := x]> l) d = if decide (j = i) then x else nth j l d.
Proof.
  revert i j; induction l as [|y l IH]; intros [|i] [|j] Hlt; simpl in *; try lia; try reflexivity.
  rewrite IH by lia. destruct (decide (j = i)), (decide (S j = S i)); try lia; reflexivity.
Qed.

Lemma torch_zeros_square n : square n (torch_zeros n n).
Proof.
  unfold square, nrows, Matrix_wf; simpl. rewrite length_replicate.
  split; [reflexivity|]. split; [reflexivity|].
  apply Forall_forall. intros r Hr. apply list_elem_of_In, elem_of_replicate in Hr.
  destruct Hr as [-> _]. apply length_replicate.
Qed.

Lemma entry_torch_zeros n m i j : entry (torch_zeros n m) i j = 0%R.
Proof.
  unfold entry, row; simpl.
  destruct (decide (i < n)) as [Hi|Hi].
  - rewrite (nth_lookup_Some _ _ _ (replicate m 0%R)) by (apply lookup_replicate_2; exact Hi).
    destruct (decide (j < m)) as [Hj|Hj].
    + apply nth_lookup_Some, lookup_replicate_2; exact Hj.
    + apply nth_overflow. rewrite length_replicate. lia.
  - rewrite (nth_overflow (replicate n _)) by (rewrite length_replicate; lia). destruct j; reflexivity.
Qed.

(** ** One write, one turn of the edge loop, the whole loop *)

Lemma setitem_Ok t u v x t' n :
  square n t -> setitem t u v x = Ok t' ->
  exists c, x = [c] /\ u < n /\ v < n /\ square n t' /\
    forall i j, entry t' i j = if decide (i = u /\ j = v) then c else entry t i j.
Proof.
  intros (Hc & Hr & Hwf) H. unfold setitem in H.
  destruct (rows t !! u) as [r|] eqn:Hu; [|discriminate].
  destruct (decide (v < ncols t)) as [Hv|]; [|discriminate].
  destruct x as [|c [|? ?]]; try discriminate. inversion H; subst t'; clear H.
  assert (Hul : u < length (rows t)) by (eapply lookup_lt_Some; eauto).
  assert (Hrl : length r = ncols t).
  { eapply Forall_forall in Hwf; [exact Hwf|]. apply list_elem_of_In. eapply list_elem_of_lookup_2; eauto. }
  exists c. unfold nrows in Hr.
  split; [reflexivity|]. split; [lia|]. split; [lia|]. split.
  - unfold square, nrows, Matrix_wf; cbn [ncols rows]. rewrite length_insert.
    split; [exact Hc|]. split; [exact Hr|].
    apply Forall_insert; [exact Hwf|]. rewrite length_insert. exact Hrl.
  - intros i j. unfold entry, row; cbn [ncols rows]. rewrite nth_insert by exact Hul.
    destruct (decide (i = u)) as [->|Hne].
    + rewrite nth_insert by lia. rewrite (nth_lookup_Some _ _ [] _ Hu).
      destruct (decide (j = v)), (decide (u = u /\ j = v)); try tauto; reflexivity.
    + destruct (decide (i = u /\ j = v)); [tauto | reflexivity].
Qed.

Lemma setitem_total t u v c n :
  square n t -> u < n -> v < n -> exists t', setitem t u v [c] = Ok t'.
Proof.
  intros (Hc & Hr & _) Hu Hv. unfold setitem, nrows in *.
  destruct (lookup_lt_is_Some_2 (rows t) u ltac:(lia)) as [r ->].
  destruct (decide (v < ncols t)) as [_|Hne]; [eauto | lia].
Qed.

Lemma getitem_Ok t u r : getitem t u = Ok r -> u < nrows t /\ row t u = r.
Proof.
  unfold getitem. destruct (rows t !! u) as [r'|] eqn:Hu; [|discriminate].
  intros [= <-]. split; [eapply lookup_lt_Some; eauto | apply nth_lookup_Some; exact Hu].
Qed.

Lemma edge_step_Ok self Wh coeffs coeffs' u v n :
  square n coeffs -> edge_step self Wh coeffs (u, v) = Ok coeffs' ->
  u < n /\ v < n /\ square n coeffs' /\
  forall i j, entry coeffs' i j =
    if decide (joins (u, v) i j) then score self Wh u v else entry coeffs i j.
Proof.
  intros Hsq H. unfold edge_step in H.
  apply result_bind_Ok in H as (Wh_u & Hu & H).
  apply result_bind_Ok in H as (Wh_v & Hv & H).
  apply result_bind_Ok in H as (coeff & Hc & H).
  apply result_bind_Ok in H as (c1 & H1 & H2).
  apply getitem_Ok in Hu as [_ Hu]. apply getitem_Ok in Hv as [_ Hv].
  unfold Linear_call1 in Hc. destruct (decide _); [|discriminate]. injection Hc as Hc.
  destruct (setitem_Ok _ _ _ _ _ _ Hsq H1) as (c & -> & Hun & Hvn & Hsq1 & He1).
  destruct (setitem_Ok _ _ _ _ _ _ Hsq1 H2) as (c' & [= <-] & _ & _ & Hsq2 & He2).
  split; [exact Hun|]. split; [exact Hvn|]. split; [exact Hsq2|].
  intros i j. rewrite He2, He1. unfold score. rewrite Hu, Hv, Hc. simpl. unfold joins.
  destruct (decide (i = v /\ j = u)) as [[-> ->]|Hn1].
  - destruct (decide _) as [|Hn]; [reflexivity | exfalso; apply Hn; right; reflexivity].
  - destruct (decide (i = u /\ j = v)) as [[-> ->]|Hn2].
    + destruct (decide _) as [|Hn]; [reflexivity | exfalso; apply Hn; left; reflexivity].
    + destruct (decide _) as [[Hj|Hj]|]; [injection Hj; intros; subst; tauto | injection Hj; intros; subst; tauto | reflexivity].
Qed.

Lemma joins_sym e i j : joins e i j <-> joins e j i.
Proof. unfold joins; tauto. Qed.

Lemma edge_loop_from_Ok self Wh n edges : forall coeffs coeffs',
  square n coeffs -> foldlM (edge_step self Wh) coeffs edges = Ok coeffs' ->
  square n coeffs' /\
  (forall i j, Forall (fun e => ~ joins e i j) edges -> entry coeffs' i j = entry coeffs i j) /\
  (forall l1 u v l2, edges = l1 ++ (u, v) :: l2 -> Forall (fun e => ~ joins e u v) l2 ->
     entry coeffs' u v = score self Wh u v /\ entry coeffs' v u = score self Wh u v) /\
  ((forall i j, entry coeffs i j = entry coeffs j i) ->
   forall i j, entry coeffs' i j = entry coeffs' j i).
Proof.
  induction edges as [|[u v] edges IH]; intros coeffs coeffs' Hsq H; simpl in H.
  - injection H as <-. split; [exact Hsq|]. split; [reflexivity|]. split; [|auto].
    intros [|? ?] ? ? ? ?; discriminate.
  - apply result_bind_Ok in H as (c1 & H1 & H2).
    destruct (edge_step_Ok _ _ _ _ _ _ _ Hsq H1) as (Hu & Hv & Hsq1 & He1).
    destruct (IH _ _ Hsq1 H2) as (Hsq' & Hkeep & Hlast & Hsym).
    split; [exact Hsq'|]. split; [|split].
    + intros i j Hno. inversion Hno as [|? ? Hn Hno']; subst.
      rewrite (Hkeep _ _ Hno'), He1. destruct (decide _); [contradiction | reflexivity].
    + intros [|e l1] u' v' l2 Heq Hno; simpl in Heq.
      * injection Heq as <- <- <-.
        rewrite (Hkeep u v Hno).
        rewrite (Hkeep v u) by (eapply Forall_impl; [|exact Hno]; intros e He; rewrite joins_sym; exact He).
        rewrite !He1.
        destruct (decide (joins (u, v) u v)) as [|Hn]; [|exfalso; apply Hn; left; reflexivity].
        destruct (decide (joins (u, v) v u)) as [|Hn]; [|exfalso; apply Hn; right; reflexivity].
        split; reflexivity.
      * injection Heq as _ ->. eapply Hlast; eauto.
    + intros Hs. apply Hsym. intros i j. rewrite !He1, (Hs i j).
      destruct (decide (joins (u, v) i j)) as [Hj|Hj], (decide (joins (u, v) j i)) as [Hj'|Hj'];
        try reflexivity; rewrite joins_sym in Hj; contradiction.
Qed.



(** ** Tabulated matrices *)

Lemma map_tabulate {A B} (f : A -> B) (l : list A) d :
  map f l = map (fun i => f (nth i l d)) (seq 0 (length l)).
Proof.
  induction l as [|a l IH]; [reflexivity|]. simpl. f_equal.
  rewrite <- seq_shift, map_map. exact IH.
Qed.

Lemma zip_with_tabulate {A B C} (f : A -> B -> C) (a : list A) (b : list B) da db n :
  length a = n -> length b = n ->
  zip_with f a b = map (fun i => f (nth i a da) (nth i b db)) (seq 0 n).
Proof.
  revert b n; induction a as [|x a IH]; intros [|y b] [|n] Ha Hb; simpl in *; try lia; try reflexivity.
  f_equal. rewrite <- seq_shift, map_map. apply IH; lia.
Qed.

Lemma zip_with_map_same {A} (f g : A -> R) (l : list A) :
  zip_with Rmult (map f l) (map g l) = map (fun x => (f x * g x)%R) l.
Proof. induction l as [|a l IH]; simpl; [reflexivity | f_equal; exact IH]. Qed.

Lemma row_tabulate n m f i : i < n -> row (tabulate n m f) i = map (f i) (seq 0 m).
Proof.
  intros Hi. unfold row, tabulate; simpl.
  rewrite (nth_indep _ [] (map (f 0) (seq 0 m))) by (rewrite length_map, length_seq; exact Hi).
  rewrite (map_nth (fun i => map (f i) (seq 0 m)) (seq 0 n) 0 i), seq_nth by exact Hi. reflexivity.
Qed.

Lemma entry_tabulate n m f i j : i < n -> j < m -> entry (tabulate n m f) i j = f i j.
Proof.
  intros Hi Hj. unfold entry. rewrite row_tabulate by exact Hi.
  rewrite (nth_indep _ 0%R (f i 0)) by (rewrite length_map, length_seq; exact Hj).
  rewrite (map_nth (f i) (seq 0 m) 0 j), seq_nth by exact Hj. reflexivity.
Qed.

Lemma tabulate_square n f : square n (tabulate n n f).
Proof.
  unfold square, nrows, Matrix_wf, tabulate; simpl. rewrite length_map, length_seq.
  split; [reflexivity|]. split; [reflexivity|].
  apply Forall_forall. intros r Hr. apply in_map_iff in Hr as (i & <- & _).
  rewrite length_map, length_seq. reflexivity.
Qed.

(** A matrix is determined by its shape and its entries. *)
Lemma matrix_ext n m t f :
  nrows t = n -> ncols t = m -> Matrix_wf t ->
  (forall i j, i < n -> j < m -> entry t i j = f i j) ->
  t = tabulate n m f.
Proof.
  destruct t as [c rs]. unfold nrows, Matrix_wf, entry, row, tabulate; simpl.
  intros Hn -> Hwf He. f_equal.
  rewrite <- (map_id rs) at 1. rewrite (map_tabulate _ rs []), Hn.
  apply map_ext_in. intros i Hi. apply in_seq in Hi.
  assert (Hl : length (nth i rs []) = m).
  { eapply Forall_forall in Hwf; [exact Hwf|]. apply nth_In. lia. }
  rewrite <- (map_id (nth i rs [])) at 1. rewrite (map_tabulate _ (nth i rs []) 0%R), Hl.
  apply map_ext_in. intros j Hj. apply in_seq in Hj. apply He; lia.
Qed.

(** ** The steps of the forward pass on tabulated matrices *)

Lemma affine_tabulate i o l x :
  Linear_wf i o l ->
  affine l x = map (fun k => (dot x (row (weight l) k) + nth k (bias l) 0)%R) (seq 0 o).
Proof.
  intros (_ & Hr & _ & Hb). unfold affine, row.
  apply (zip_with_tabulate (fun w b => (dot x w + b)%R) _ _ [] 0%R); assumption.
Qed.

Lemma Linear_call_tabulate i o l X n :
  Linear_wf i o l -> ncols X = i -> nrows X = n ->
  Linear_call l X =
  Ok (tabulate n o (fun j k => (dot (row X j) (row (weight l) k) + nth k (bias l) 0)%R)).
Proof.
  intros Hl Hc Hn. pose proof Hl as (Hi & Ho & _ & _).
  unfold Linear_call, in_features, out_features.
  destruct (decide _) as [_|Hne]; [|congruence].
  unfold tabulate. rewrite Ho. do 2 f_equal.
  rewrite (map_tabulate _ (rows X) []). unfold nrows in Hn. rewrite Hn.
  apply map_ext. intros j. apply (affine_tabulate i o); exact Hl.
Qed.

Lemma score_tabulate self g X u v :
  GraphAttentionNetwork_wf self -> u < number_of_nodes g -> v < number_of_nodes g ->
  score self (tabulate (number_of_nodes g) (output_F self) (spec_Wh self X)) u v =
  spec_score self X u v.
Proof.
  intros [_ Ha] Hu Hv. unfold score, spec_score.
  rewrite (affine_tabulate _ 1 _ _ Ha), !row_tabulate by assumption. reflexivity.
Qed.

Lemma edge_loop_from_spec self g X n edges : forall coeffs coeffs' c,
  GraphAttentionNetwork_wf self -> n = number_of_nodes g ->
  square n coeffs ->
  (forall i j, i < n -> j < n -> entry coeffs i j = c i j) ->
  foldlM (edge_step self (tabulate n (output_F self) (spec_Wh self X))) coeffs edges = Ok coeffs' ->
  square n coeffs' /\
  forall i j, i < n -> j < n ->
    entry coeffs' i j = fold_left (spec_assign self X) edges c i j.
Proof.
  induction edges as [|[u v] edges IH]; intros coeffs coeffs' c Hwf Hn Hsq Hc H; simpl in H.
  - injection H as <-. split; [exact Hsq | exact Hc].
  - apply result_bind_Ok in H as (c1 & H1 & H2).
    destruct (edge_step_Ok _ _ _ _ _ _ _ Hsq H1) as (Hu & Hv & Hsq1 & He1).
    simpl. eapply IH; eauto.
    intros i j Hi Hj. rewrite He1. unfold spec_assign. simpl.
    subst n. rewrite score_tabulate by assumption.
    destruct (decide _); [reflexivity | apply Hc; assumption].
Qed.

Lemma edge_step_total self Wh coeffs u v n :
  GraphAttentionNetwork_wf self -> square n coeffs ->
  Matrix_wf Wh -> ncols Wh = output_F self -> nrows Wh = n ->
  u < n -> v < n ->
  exists coeffs', edge_step self Wh coeffs (u, v) = Ok coeffs'.
Proof.
  intros [_ Ha] (Hc & Hr & Hwf) HwfW HcW HrW Hu Hv. unfold edge_step, nrows in *.
  destruct (lookup_lt_is_Some_2 (rows Wh) u ltac:(lia)) as [ru Hru].
  destruct (lookup_lt_is_Some_2 (rows Wh) v ltac:(lia)) as [rv Hrv].
  assert (Hlu : length ru = output_F self).
  { rewrite <- HcW. eapply Forall_forall in HwfW; [exact HwfW|].
    apply list_elem_of_In. eapply list_elem_of_lookup_2; eauto. }
  assert (Hlv : length rv = output_F self).
  { rewrite <- HcW. eapply Forall_forall in HwfW; [exact HwfW|].
    apply list_elem_of_In. eapply list_elem_of_lookup_2; eauto. }
  unfold getitem. rewrite Hru, Hrv. simpl.
  unfold Linear_call1, in_features. destruct Ha as (Hi & Ho & Hw & Hb).
  destruct (decide _) as [_|Hne];
    [|exfalso; apply Hne; unfold torch_cat; rewrite length_app, Hi; lia].
  simpl. rewrite (affine_tabulate _ 1 _ _ (conj Hi (conj Ho (conj Hw Hb)))). simpl.
  set (c := (dot (torch_cat ru rv) (row (weight (attention self)) 0)
             + nth 0 (bias (attention self)) 0)%R).
  assert (Hsq : square n coeffs) by (unfold square, nrows; auto).
  destruct (setitem_total coeffs u v c n Hsq Hu Hv) as [c1 H1]. rewrite H1. simpl.
  destruct (setitem_Ok _ _ _ _ _ _ Hsq H1) as (_ & _ & _ & _ & Hsq1 & _).
  apply (setitem_total _ _ _ _ n); assumption.
Qed.

Lemma edge_loop_from_total self Wh n edges : forall coeffs,
  GraphAttentionNetwork_wf self -> square n coeffs ->
  Matrix_wf Wh -> ncols Wh = output_F self -> nrows Wh = n ->
  Forall (fun e => fst e < n /\ snd e < n) edges ->
  exists coeffs', foldlM (edge_step self Wh) coeffs edges = Ok coeffs'.
Proof.
  induction edges as [|[u v] edges IH]; intros coeffs Hwf Hsq HW Hc Hr Hin; cbn [foldlM].
  - eauto.
  - inversion Hin as [|? ? [Hu Hv] Hin']; subst. simpl in Hu, Hv.
    destruct (edge_step_total self Wh coeffs u v _ Hwf Hsq HW Hc eq_refl Hu Hv) as [c1 H1].
    rewrite H1. simpl.
    destruct (edge_step_Ok _ _ _ _ _ _ _ Hsq H1) as (_ & _ & Hsq1 & _).
    apply IH; auto.
Qed.

Lemma matrix_map_tabulate f n m c :
  matrix_map f (tabulate n m c) = tabulate n m (fun i j => f (c i j)).
Proof.
  unfold matrix_map, tabulate; simpl. f_equal. rewrite map_map.
  apply map_ext. intros i. apply map_map.
Qed.

Lemma F_softmax_dim1_tabulate n m c :
  F_softmax_dim1 (tabulate n m c) =
  tabulate n m (fun i j => (exp (c i j) / Rsum (map (fun k => exp (c i k)) (seq 0 m)))%R).
Proof.
  unfold F_softmax_dim1, tabulate; simpl. f_equal. rewrite map_map.
  apply map_ext. intros i. unfold softmax_row. rewrite !map_map. reflexivity.
Qed.

Lemma column_tabulate n m w o :
  o < m -> column (tabulate n m w) o = map (fun j => w j o) (seq 0 n).
Proof.
  intros Ho. unfold column, tabulate; simpl. rewrite map_map.
  apply map_ext. intros j.
  rewrite (nth_indep _ 0%R (w j 0)) by (rewrite length_map, length_seq; exact Ho).
  rewrite (map_nth (w j) (seq 0 m) 0 o), seq_nth by exact Ho. reflexivity.
Qed.

Lemma mm_tabulate n m a w :
  mm (tabulate n n a) (tabulate n m w) =
  Ok (tabulate n m (fun i o => Rsum (map (fun j => (a i j * w j o)%R) (seq 0 n)))).
Proof.
  unfold mm. destruct (decide _) as [_|Hne].
  - f_equal. set (B := tabulate n m w). unfold tabulate. cbn [ncols rows].
    replace (ncols B) with m by reflexivity. f_equal. rewrite map_map.
    apply map_ext. intros i. subst B. apply map_ext_in. intros o Ho. apply in_seq in Ho.
    rewrite column_tabulate by lia. unfold dot. rewrite zip_with_map_same. reflexivity.
  - exfalso. apply Hne. unfold nrows, tabulate; simpl. rewrite length_map, length_seq. reflexivity.
Qed.

Lemma spec_coeffs_from_keep self X edges : forall c i j,
  Forall (fun e => ~ joins e i j) edges ->
  fold_left (spec_assign self X) edges c i j = c i j.
Proof.
  induction edges as [|e edges IH]; intros c i j Hno; simpl; [reflexivity|].
  inversion Hno as [|? ? Hn Hno']; subst. rewrite IH by exact Hno'.
  unfold spec_assign. destruct (decide _); [contradiction | reflexivity].
Qed.

Lemma spec_coeffs_last self g X l1 u v l2 :
  all_edges g = l1 ++ (u, v) :: l2 -> Forall (fun e => ~ joins e u v) l2 ->
  spec_coeffs self g X u v = spec_score self X u v /\
  spec_coeffs self g X v u = spec_score self X u v.
Proof.
  intros He Hno. unfold spec_coeffs. rewrite He, fold_left_app. cbn [fold_left].
  rewrite spec_coeffs_from_keep by exact Hno.
  rewrite (spec_coeffs_from_keep self X l2 _ v u)
    by (eapply Forall_impl; [|exact Hno]; intros e Hj; rewrite joins_sym; exact Hj).
  unfold spec_assign; cbn [fst snd].
  destruct (decide (joins (u, v) u v)) as [_|Hn]; [|exfalso; apply Hn; left; reflexivity].
  destruct (decide (joins (u, v) v u)) as [_|Hn]; [|exfalso; apply Hn; right; reflexivity].
  split; reflexivity.
Qed.

(** C1.  On a graph [g] and a feature matrix [X] with one row per node of
    [g], the forward pass of the attention model computes [Wh] as the linear
    projection of [X]; its edge loop leaves the nodes-by-nodes matrix that
    starts at zero and receives, for every edge (u, v) in turn, the attention
    score of Wh[u] ++ Wh[v] at both (u, v) and (v, u), so that entries no edge
    joins stay zero; and it returns the activation of alpha times [Wh], where
    alpha is the leaky rectifier applied entrywise and then the softmax over
    each whole row. *)
Theorem GraphAttentionNetwork_forward_spec self g X :
  GraphAttentionNetwork_wf self -> gat_g self = Some g -> DGLGraph_wf g ->
  ncols X = input_F self -> nrows X = number_of_nodes g ->
  Linear_call (linear self) X =
    Ok (tabulate (number_of_nodes g) (output_F self) (spec_Wh self X)) /\
  edge_loop self (tabulate (number_of_nodes g) (output_F self) (spec_Wh self X)) g =
    Ok (tabulate (number_of_nodes g) (number_of_nodes g) (spec_coeffs self g X)) /\
  (forall i j, Forall (fun e => ~ joins e i j) (all_edges g) ->
     spec_coeffs self g X i j = 0%R) /\
  (forall l1 u v l2, all_edges g = l1 ++ (u, v) :: l2 ->
     Forall (fun e => ~ joins e u v) l2 ->
     spec_coeffs self g X u v = spec_score self X u v /\
     spec_coeffs self g X v u = spec_score self X u v) /\
  GraphAttentionNetwork_forward self X = Ok (spec_forward self g X).
Proof.
  intros Hwf Hg Hgwf Hc Hr.
  set (n := number_of_nodes g). set (Wh := tabulate n (output_F self) (spec_Wh self X)).
  assert (HWh : Linear_call (linear self) X = Ok Wh).
  { apply (Linear_call_tabulate (input_F self)); [apply Hwf | exact Hc | exact Hr]. }
  assert (HWwf : Matrix_wf Wh /\ ncols Wh = output_F self /\ nrows Wh = n).
  { unfold Wh, Matrix_wf, nrows, tabulate; simpl. rewrite length_map, length_seq.
    split; [|split; reflexivity].
    apply Forall_forall. intros r Hin. apply in_map_iff in Hin as (i & <- & _).
    rewrite length_map, length_seq. reflexivity. }
  destruct HWwf as (HW1 & HW2 & HW3).
  destruct (edge_loop_from_total self Wh n (all_edges g) (torch_zeros n n) Hwf
              (torch_zeros_square n) HW1 HW2 HW3 Hgwf) as [coeffs Hloop].
  destruct (edge_loop_from_spec self g X n (all_edges g) _ _ (fun _ _ => 0%R) Hwf eq_refl
              (torch_zeros_square n) (fun i j _ _ => entry_torch_zeros n n i j) Hloop)
    as ((Hc1 & Hc2 & Hc3) & Hent).
  assert (Hcoeffs : coeffs = tabulate n n (spec_coeffs self g X)).
  { apply matrix_ext; assumption. }
  assert (Hedge : edge_loop self Wh g = Ok (tabulate n n (spec_coeffs self g X))).
  { unfold edge_loop. fold n. rewrite Hloop, Hcoeffs. reflexivity. }
  split; [exact HWh|]. split; [exact Hedge|].
  split; [intros i j Hno; apply (spec_coeffs_from_keep self X (all_edges g)); exact Hno|].
  split; [apply spec_coeffs_last|].
  unfold GraphAttentionNetwork_forward. rewrite HWh. cbn [mbind result_bind]. rewrite Hg.
  cbn [mbind result_bind]. rewrite Hedge. cbn [mbind result_bind].
  unfold F_leaky_relu. rewrite matrix_map_tabulate, F_softmax_dim1_tabulate.
  unfold Wh. rewrite mm_tabulate. reflexivity.
Qed.

(** ** The graph without edges *)

Lemma leaky_relu1_0 s : leaky_relu1 s 0 = 0%R.
Proof.
  unfold leaky_relu1, Rmax, Rmin. destruct (Rle_dec 0 0); lra.
Qed.

Lemma map_replicate {A B} (f : A -> B) n x : map f (replicate n x) = replicate n (f x).
Proof. induction n as [|n IH]; simpl; [reflexivity | f_equal; exact IH]. Qed.

Lemma Rsum_replicate n x : Rsum (replicate n x) = (INR n * x)%R.
Proof.
  induction n as [|n IH]; [simpl; lra|].
  rewrite S_INR. simpl replicate. unfold Rsum in *. simpl. rewrite IH. lra.
Qed.

Lemma attention_of_zeros n s :
  F_softmax_dim1 (F_leaky_relu (torch_zeros n n) s) = uniform_attention n.
Proof.
  unfold F_softmax_dim1, F_leaky_relu, matrix_map, torch_zeros, uniform_attention; simpl.
  f_equal. rewrite !map_replicate. f_equal.
  unfold softmax_row. rewrite !map_replicate, Rsum_replicate, leaky_relu1_0, exp_0.
  f_equal. f_equal. lra.
Qed.

(** C2.  On a graph with n nodes and no edge, the coefficient matrix before
    the softmax is all zero, and the attention matrix after the softmax
    gives every node, in every row, the weight 1 / n; the forward pass
    multiplies that uniform matrix by [Wh]. *)
Theorem no_edges_uniform_attention self g X :
  gat_g self = Some g -> all_edges g = [] ->
  (forall Wh, edge_loop self Wh g = Ok (torch_zeros (number_of_nodes g) (number_of_nodes g))) /\
  (forall i j, entry (torch_zeros (number_of_nodes g) (number_of_nodes g)) i j = 0%R) /\
  F_softmax_dim1 (F_leaky_relu (torch_zeros (number_of_nodes g) (number_of_nodes g))
                               (input_slope self)) =
    uniform_attention (number_of_nodes g) /\
  (forall i j, i < number_of_nodes g -> j < number_of_nodes g ->
     entry (uniform_attention (number_of_nodes g)) i j = (1 / INR (number_of_nodes g))%R) /\
  GraphAttentionNetwork_forward self X =
    (Wh ← Linear_call (linear self) X;
     out ← mm (uniform_attention (number_of_nodes g)) Wh;
     Ok (activation self out)).
Proof.
  intros Hg He.
  assert (Hloop : forall Wh, edge_loop self Wh g =
                             Ok (torch_zeros (number_of_nodes g) (number_of_nodes g))).
  { intros Wh. unfold edge_loop. rewrite He. reflexivity. }
  split; [exact Hloop|]. split; [intros; apply entry_torch_zeros|].
  split; [apply attention_of_zeros|]. split.
  - intros i j Hi Hj. unfold entry, row, uniform_attention; simpl.
    rewrite (nth_lookup_Some _ _ _ (replicate (number_of_nodes g) (1 / INR (number_of_nodes g))%R))
      by (apply lookup_replicate_2; exact Hi).
    apply nth_lookup_Some, lookup_replicate_2; exact Hj.
  - unfold GraphAttentionNetwork_forward. destruct (Linear_call (linear self) X) as [Wh|e]; [|reflexivity].
    cbn [mbind result_bind]. rewrite Hg. cbn [mbind result_bind]. rewrite Hloop.
    cbn [mbind result_bind]. rewrite attention_of_zeros. reflexivity.
Qed.

(** C9.  Whatever the order in which the edges of the graph are visited,
    the coefficient matrix the edge loop produces is symmetric:
    coeffs[u, v] = coeffs[v, u] for all u and v.  On a well-formed model and
    graph the loop does produce one. *)
Theorem edge_loop_symmetric self Wh g edges :
  edges ≡ₚ all_edges g ->
  (forall coeffs, edge_loop self Wh (with_edges g edges) = Ok coeffs ->
     forall u v, entry coeffs u v = entry coeffs v u) /\
  (GraphAttentionNetwork_wf self -> DGLGraph_wf g -> Matrix_wf Wh ->
   ncols Wh = output_F self -> nrows Wh = number_of_nodes g ->
   exists coeffs, edge_loop self Wh (with_edges g edges) = Ok coeffs).
Proof.
  intros Hperm. unfold edge_loop, with_edges; cbn [number_of_nodes all_edges]. split.
  - intros coeffs Hloop.
    destruct (edge_loop_from_Ok self Wh _ edges _ _ (torch_zeros_square _) Hloop)
      as (_ & _ & _ & Hsym).
    apply Hsym. intros i j. rewrite !entry_torch_zeros. reflexivity.
  - intros Hwf Hg HW Hc Hr.
    apply (edge_loop_from_total self Wh (number_of_nodes g)); auto using torch_zeros_square.
    unfold DGLGraph_wf in Hg. rewrite Hperm. exact Hg.
Qed.

(** * The attention model outside its preconditions *)

Lemma edge_loop_from_in_range self Wh n edges : forall coeffs coeffs',
  square n coeffs -> foldlM (edge_step self Wh) coeffs edges = Ok coeffs' ->
  Forall (fun e => (fst e < n /\ snd e < n) /\ fst e < nrows Wh /\ snd e < nrows Wh) edges.
Proof.
  induction edges as [|[u v] edges IH]; intros coeffs coeffs' Hsq H; [constructor|].
  cbn [foldlM] in H. apply result_bind_Ok in H as (c1 & H1 & H2).
  destruct (edge_step_Ok _ _ _ _ _ _ _ Hsq H1) as (Hu & Hv & Hsq1 & _).
  constructor; [|exact (IH _ _ Hsq1 H2)].
  unfold edge_step in H1.
  apply result_bind_Ok in H1 as (Wh_u & Hgu & H1).
  apply result_bind_Ok in H1 as (Wh_v & Hgv & _).
  apply getitem_Ok in Hgu as [Hgu _]. apply getitem_Ok in Hgv as [Hgv _].
  cbn [fst snd]. auto.
Qed.

(** X1.  The forward pass returns only when the model has a graph, the
    feature matrix has the width the projection expects and exactly one row
    per node of the graph, and every edge joins nodes of the graph. *)
Theorem GraphAttentionNetwork_forward_returns_only_if self X :
  returns (GraphAttentionNetwork_forward self X) = true ->
  exists g, gat_g self = Some g /\
    ncols X = in_features (linear self) /\
    nrows X = number_of_nodes g /\
    DGLGraph_wf g.
Proof.
  destruct (GraphAttentionNetwork_forward self X) as [out|e] eqn:H; [intros _|discriminate].
  unfold GraphAttentionNetwork_forward in H.
  apply result_bind_Ok in H as (Wh & HWh & H).
  apply result_bind_Ok in H as (g & Hg & H).
  apply result_bind_Ok in H as (coeffs & Hloop & H).
  apply result_bind_Ok in H as (o & Hmm & _).
  destruct (gat_g self) as [g'|]; [injection Hg as ->|discriminate].
  exists g. split; [reflexivity|].
  unfold Linear_call in HWh. destruct (decide _) as [Hc|]; [|discriminate].
  injection HWh as <-. split; [exact Hc|].
  unfold edge_loop in Hloop.
  destruct (edge_loop_from_Ok _ _ _ _ _ _ (torch_zeros_square _) Hloop) as ((Hcc & _ & _) & _).
  pose proof (edge_loop_from_in_range _ _ _ _ _ _ (torch_zeros_square _) Hloop) as Hin.
  unfold mm in Hmm. destruct (decide _) as [Hd|]; [|discriminate].
  unfold F_softmax_dim1, F_leaky_relu, matrix_map, nrows in Hd. cbn [ncols rows] in Hd.
  rewrite length_map in Hd. split; [unfold nrows; congruence|].
  unfold DGLGraph_wf. eapply Forall_impl; [|exact Hin]. intros e He. exact (proj1 He).
Qed.

(** X2.  A model fresh from [__init__] has no graph: its forward pass raises
    [AttributeError] when the input has the width of the projection, and
    [RuntimeError] from the projection otherwise. *)
Theorem GraphAttentionNetwork_forward_before_graph input_F output_F activation slope
    linear0 attention0 X :
  GraphAttentionNetwork_forward
    (GraphAttentionNetwork_init input_F output_F activation slope linear0 attention0) X
  = if decide (ncols X = in_features linear0) then Raise AttributeError
    else Raise RuntimeError.
Proof.
  unfold GraphAttentionNetwork_forward, GraphAttentionNetwork_init, Linear_call; cbn [linear gat_g].
  destruct (decide _); reflexivity.
Qed.

(** ** The attention matrix *)

Lemma nth_map_nil {A B} (f : list A -> list B) (l : list (list A)) i :
  f [] = [] -> nth i (map f l) [] = f (nth i l []).
Proof. intros Hf. rewrite <- Hf at 1. apply map_nth. Qed.

Lemma row_attention (coeffs : Matrix) (slope : R) (i : nat) :
  row (F_softmax_dim1 (F_leaky_relu coeffs slope)) i
  = softmax_row (map (leaky_relu1 slope) (row coeffs i)).
Proof.
  unfold row, F_softmax_dim1, F_leaky_relu, matrix_map. cbn [ncols rows].
  rewrite (nth_map_nil softmax_row) by reflexivity.
  rewrite (nth_map_nil (map (leaky_relu1 slope))) by reflexivity. reflexivity.
Qed.





Lemma row_all (t : Matrix) n i (f : nat -> R) :
  square n t -> i < n -> (forall j, j < n -> entry t i j = f j) ->
  row t i = map f (seq 0 n).
Proof.
  intros (Hc & Hr & Hwf) Hi He.
  assert (Hl : length (row t i) = n).
  { unfold row. rewrite <- Hc. eapply Forall_forall in Hwf; [exact Hwf|].
    apply nth_In. unfold nrows in Hr. lia. }
  rewrite <- (map_id (row t i)) at 1. rewrite (map_tabulate _ (row t i) 0%R), Hl.
  apply map_ext_in. intros j Hj. apply in_seq in Hj. apply He. lia.
Qed.

(** X4.  A node that no edge touches keeps a zero row in the coefficient
    matrix, so after the softmax it gives the weight 1 / n to every node of
    the graph, whatever the other edges are. *)
Theorem isolated_node_attention self Wh g coeffs i :
  edge_loop self Wh g = Ok coeffs ->
  i < number_of_nodes g ->
  Forall (fun e => fst e <> i /\ snd e <> i) (all_edges g) ->
  forall j, j < number_of_nodes g ->
    entry coeffs i j = 0%R /\
    entry (F_softmax_dim1 (F_leaky_relu coeffs (input_slope self))) i j
      = (1 / INR (number_of_nodes g))%R.
Proof.
  intros Hloop Hi Hno. unfold edge_loop in Hloop.
  destruct (edge_loop_from_Ok _ _ _ _ _ _ (torch_zeros_square _) Hloop)
    as (Hsq & Hkeep & _ & _).
  assert (Hzero : forall j, entry coeffs i j = 0%R).
  { intros j. rewrite Hkeep, entry_torch_zeros; [reflexivity|].
    eapply Forall_impl; [|exact Hno]. intros [u v] [Hu Hv] [Hj|Hj];
      injection Hj; intros; subst; cbn in *; congruence. }
  intros j Hj. split; [apply Hzero|].
  assert (Hrow : row coeffs i = map (fun _ => 0%R) (seq 0 (number_of_nodes g))).
  { apply row_all; auto. }
  unfold entry. rewrite row_attention, Hrow. unfold softmax_row. rewrite !map_map.
  rewrite (nth_indep _ 0%R ((fun _ : nat => (exp (leaky_relu1 (input_slope self) 0) /
     Rsum (map (fun x : nat => exp (leaky_relu1 (input_slope self) 0))
               (seq 0 (number_of_nodes g))))%R) 0))
    by (rewrite length_map, length_seq; exact Hj).
  rewrite (map_nth (fun _ : nat => _) (seq 0 (number_of_nodes g)) 0 j).
  rewrite leaky_relu1_0, exp_0.
  replace (map (fun _ : nat => 1%R) (seq 0 (number_of_nodes g)))
    with (replicate (number_of_nodes g) 1%R).
  - rewrite Rsum_replicate. f_equal. lra.
  - clear. generalize 0. induction (number_of_nodes g) as [|n IH]; intros k; cbn;
      [reflexivity | f_equal; apply IH].
Qed.

(** * Collation *)

(** The fuel of [chunks] is enough: the chunks of a list, put end to end,
    are the list. *)
Lemma chunks_fuel_concat {A : Type} (size : nat) : forall fuel (l : list A),
  0 < size -> length l <= fuel -> concat (chunks_fuel fuel size l) = l.
Proof.
  induction fuel as [|fuel IH]; intros l Hs Hl.
  - destruct l; [reflexivity | simpl in Hl; lia].
  - destruct l as [|a l]; [reflexivity|]. cbn [chunks_fuel concat].
    rewrite IH; [apply take_drop | exact Hs |].
    rewrite length_drop. simpl in *. lia.
Qed.

Lemma chunks_concat {A : Type} (size : nat) (l : list A) :
  0 < size -> concat (chunks size l) = l.
Proof. intros Hs. apply chunks_fuel_concat; [exact Hs | reflexivity]. Qed.

Lemma batch_from_nodes graphs : forall acc,
  number_of_nodes
    (fold_left
       (fun acc g =>
          {| number_of_nodes := number_of_nodes acc + number_of_nodes g;
             all_edges := all_edges acc ++ map (shift_edge (number_of_nodes acc)) (all_edges g) |})
       graphs acc) =
  number_of_nodes acc + sum_list (map number_of_nodes graphs).
Proof.
  induction graphs as [|g graphs IH]; intros acc; simpl; [lia|].
  rewrite IH. simpl. lia.
Qed.

Lemma batch_number_of_nodes graphs :
  number_of_nodes (batch graphs) = sum_list (map number_of_nodes graphs).
Proof. unfold batch. rewrite batch_from_nodes. reflexivity. Qed.

Lemma np_concatenate_Ok arrays w :
  arrays <> [] -> Forall (fun a => ncols a = w) arrays ->
  np_concatenate arrays = Ok {| ncols := w; rows := concat (map rows arrays) |}.
Proof.
  intros Hne Hw. destruct arrays as [|a rest]; [congruence|].
  inversion Hw as [|? ? Ha Hrest]; subst. unfold np_concatenate.
  replace (forallb (fun b => ncols b =? ncols a) rest) with true; [reflexivity|].
  symmetry. apply forallb_forall. intros b Hb.
  eapply Forall_forall in Hrest; [|exact Hb].
  apply Nat.eqb_eq. exact Hrest.
Qed.

Lemma length_concat_rows (ms : list Matrix) :
  length (concat (map rows ms)) = sum_list (map nrows ms).
Proof.
  induction ms as [|m ms IH]; simpl; [reflexivity|].
  rewrite length_app, IH. reflexivity.
Qed.

Lemma lookup_concat_chunk {A B} (f : B -> list A) (l : list B) : forall i b r,
  l !! i = Some b -> r < length (f b) ->
  concat (map f l) !! (sum_list (map (fun b => length (f b)) (take i l)) + r) = f b !! r.
Proof.
  induction l as [|b0 l IH]; intros [|i] b r Hl Hr; simpl in *; try discriminate.
  - injection Hl as ->. apply lookup_app_l. exact Hr.
  - rewrite <- Nat.add_assoc, lookup_app_r by lia.
    replace (length (f b0) + _ - length (f b0)) with
      (sum_list (map (fun b => length (f b)) (take i l)) + r) by lia.
    apply IH; assumption.
Qed.

(** C4.  On a non-empty list of samples (each with one feature row and one
    label row per node, all of the same widths), [collate_fn] returns a graph
    whose node count is the sum of the node counts of the samples, and a
    feature matrix and a label matrix with that many rows; the rows of the
    i-th sample stand together, in their own order, after the rows of the
    samples before it. *)
Theorem collate_fn_rows (sample : list Sample) (f l : nat) :
  sample <> [] ->
  Forall sample_wf sample ->
  Forall (fun s => ncols (sample_features s) = f /\ ncols (sample_labels s) = l) sample ->
  exists graph features labels,
    collate_fn sample = Ok (graph, features, labels) /\
    number_of_nodes graph = sum_list (node_counts sample) /\
    nrows features = sum_list (node_counts sample) /\
    nrows labels = sum_list (node_counts sample) /\
    forall i s r, sample !! i = Some s -> r < number_of_nodes (sample_graph s) ->
      rows features !! (sum_list (node_counts (take i sample)) + r)
        = rows (sample_features s) !! r /\
      rows labels !! (sum_list (node_counts (take i sample)) + r)
        = rows (sample_labels s) !! r.
Proof.
  intros Hne Hwf Hw.
  assert (Hf : np_concatenate (map sample_features sample) =
               Ok {| ncols := f; rows := concat (map rows (map sample_features sample)) |}).
  { apply np_concatenate_Ok; [destruct sample; [congruence | discriminate]|].
    apply Forall_forall. intros a Ha. apply in_map_iff in Ha as (s & <- & Hs).
    eapply Forall_forall in Hw; [|exact Hs]. tauto. }
  assert (Hl : np_concatenate (map sample_labels sample) =
               Ok {| ncols := l; rows := concat (map rows (map sample_labels sample)) |}).
  { apply np_concatenate_Ok; [destruct sample; [congruence | discriminate]|].
    apply Forall_forall. intros a Ha. apply in_map_iff in Ha as (s & <- & Hs).
    eapply Forall_forall in Hw; [|exact Hs]. tauto. }
  assert (Hnf : forall ss, Forall sample_wf ss ->
                  map nrows (map sample_features ss) = node_counts ss /\
                  map nrows (map sample_labels ss) = node_counts ss).
  { intros ss Hss. unfold node_counts. rewrite !map_map.
    split; apply map_ext_in; intros s Hs;
      (eapply Forall_forall in Hss; [|exact Hs]); destruct Hss; assumption. }
  eexists _, _, _. split.
  { unfold collate_fn. destruct sample as [|s0 rest]; [congruence|].
    rewrite Hf. cbn [mbind result_bind]. rewrite Hl. reflexivity. }
  split; [rewrite batch_number_of_nodes; unfold node_counts; rewrite map_map; reflexivity|].
  destruct (Hnf sample Hwf) as [Hn1 Hn2].
  split; [unfold nrows; cbn [rows]; rewrite length_concat_rows, Hn1; reflexivity|].
  split; [unfold nrows; cbn [rows]; rewrite length_concat_rows, Hn2; reflexivity|].
  intros i s r Hi Hr. cbn [rows].
  assert (Hs : sample_wf s).
  { eapply Forall_forall in Hwf; [exact Hwf|]. apply list_elem_of_In. eapply list_elem_of_lookup_2; eauto. }
  destruct Hs as [Hs1 Hs2].
  assert (Htake : Forall sample_wf (take i sample)) by (apply Forall_take; exact Hwf).
  destruct (Hnf _ Htake) as [Ht1 Ht2].
  rewrite !map_map. split.
  - rewrite <- Ht1. rewrite map_map.
    apply (lookup_concat_chunk (fun s => rows (sample_features s)) sample i s r Hi).
    unfold nrows in Hs1. lia.
  - rewrite <- Ht2. rewrite map_map.
    apply (lookup_concat_chunk (fun s => rows (sample_labels s)) sample i s r Hi).
    unfold nrows in Hs2. lia.
Qed.

(** ** The edges of a batch *)

Lemma sum_take_lookup_le {A} (f : A -> nat) (l : list A) : forall i a,
  l !! i = Some a -> sum_list (map f (take i l)) + f a <= sum_list (map f l).
Proof.
  induction l as [|b l IH]; intros [|i] a Hi; cbn in *; try discriminate.
  - injection Hi as ->. lia.
  - specialize (IH i a Hi). lia.
Qed.

Lemma batch_from_edges graphs : forall acc,
  all_edges
    (fold_left
       (fun acc g =>
          {| number_of_nodes := number_of_nodes acc + number_of_nodes g;
             all_edges := all_edges acc ++ map (shift_edge (number_of_nodes acc)) (all_edges g) |})
       graphs acc) =
  all_edges acc ++ shifted_edges (number_of_nodes acc) graphs.
Proof.
  induction graphs as [|g graphs IH]; intros acc; cbn [fold_left shifted_edges].
  - rewrite app_nil_r. reflexivity.
  - rewrite IH. cbn [number_of_nodes all_edges]. rewrite <- app_assoc. reflexivity.
Qed.

Lemma batch_all_edges graphs : all_edges (batch graphs) = shifted_edges 0 graphs.
Proof. unfold batch. rewrite batch_from_edges. reflexivity. Qed.

Lemma shifted_edges_blocks graphs : forall offset,
  Forall DGLGraph_wf graphs ->
  Forall (fun e => exists i g, graphs !! i = Some g /\
            (offset + sum_list (map number_of_nodes (take i graphs)) <= fst e
               < offset + sum_list (map number_of_nodes (take i graphs)) + number_of_nodes g) /\
            (offset + sum_list (map number_of_nodes (take i graphs)) <= snd e
               < offset + sum_list (map number_of_nodes (take i graphs)) + number_of_nodes g))
         (shifted_edges offset graphs).
Proof.
  induction graphs as [|g graphs IH]; intros offset Hwf; cbn [shifted_edges]; [constructor|].
  inversion Hwf as [|? ? Hg Hgs]; subst. apply Forall_app. split.
  - apply Forall_forall. intros e He. apply in_map_iff in He as ([u v] & <- & Hin).
    unfold DGLGraph_wf in Hg. eapply Forall_forall in Hg; [|exact Hin]. cbn in Hg.
    exists 0, g. cbn. split; [reflexivity|]. lia.
  - eapply Forall_impl; [|apply IH; exact Hgs].
    intros e (i & g' & Hi & H1 & H2). exists (S i), g'. cbn. split; [exact Hi|]. lia.
Qed.

(** X5.  Collating samples whose graphs are well formed gives a well-formed
    graph in which every edge stays inside the block of nodes of one sample:
    no edge of the batch joins nodes of two different samples. *)
Theorem collate_fn_block_diagonal (sample : list Sample) graph features labels :
  Forall (fun s => DGLGraph_wf (sample_graph s)) sample ->
  collate_fn sample = Ok (graph, features, labels) ->
  DGLGraph_wf graph /\
  Forall (fun e => exists i, in_block (map sample_graph sample) i e) (all_edges graph).
Proof.
  intros Hwf Hc. unfold collate_fn in Hc. destruct sample as [|s0 rest]; [discriminate|].
  set (sample := s0 :: rest) in *.
  destruct (np_concatenate (map sample_features sample)); cbn [mbind result_bind] in Hc; [|discriminate].
  destruct (np_concatenate (map sample_labels sample)); cbn [mbind result_bind] in Hc; [|discriminate].
  injection Hc as <- _ _.
  assert (Hg : Forall DGLGraph_wf (map sample_graph sample)).
  { apply Forall_forall. intros g Hg. apply in_map_iff in Hg as (s & <- & Hs).
    eapply Forall_forall in Hwf; [exact Hwf | exact Hs]. }
  pose proof (shifted_edges_blocks _ 0 Hg) as Hb. rewrite <- batch_all_edges in Hb.
  split.
  - unfold DGLGraph_wf. rewrite batch_number_of_nodes.
    eapply Forall_impl; [|exact Hb]. intros e (i & g & Hi & H1 & H2).
    pose proof (sum_take_lookup_le number_of_nodes _ _ _ Hi) as Hle.
    change (sample_graph s0 :: map sample_graph rest) with (map sample_graph sample). lia.
  - eapply Forall_impl; [|exact Hb]. intros e (i & g & Hi & H1 & H2).
    exists i, g. split; [exact Hi|]. cbn zeta. lia.
Qed.

Lemma collate_fn_one (s : Sample) : collate_fn [s] = Ok s.
Proof.
  destruct s as [[[n edges] [fc frows]] [lc lrows]].
  unfold collate_fn, np_concatenate, batch, sample_graph, sample_features, sample_labels.
  cbn. rewrite !app_nil_r.
  replace (map (shift_edge 0) edges) with edges; [reflexivity|].
  induction edges as [|[u v] edges IH]; cbn; [reflexivity | f_equal; exact IH].
Qed.

(** X6.  A batch of one sample is that sample. *)
Theorem collate_fn_singleton (s : Sample) : collate_fn [s] = Ok s.
Proof. apply collate_fn_one. Qed.

(** X7.  Samples whose feature matrices, or label matrices, do not all have
    the width of the first one cannot be collated. *)
Theorem collate_fn_width_mismatch (s0 : Sample) (rest : list Sample) :
  Exists (fun s => ncols (sample_features s) <> ncols (sample_features s0)
                   \/ ncols (sample_labels s) <> ncols (sample_labels s0)) rest ->
  collate_fn (s0 :: rest) = Raise ValueError.
Proof.
  intros Hex. unfold collate_fn.
  assert (Hcat : forall (h : Sample -> Matrix),
            ((forall s, In s rest -> ncols (h s) = ncols (h s0)) /\
             exists m, np_concatenate (map h (s0 :: rest)) = Ok m) \/
            np_concatenate (map h (s0 :: rest)) = Raise ValueError).
  { intros h. cbn [map np_concatenate].
    destruct (forallb (fun b => ncols b =? ncols (h s0)) (map h rest)) eqn:Hall;
      [left|right; reflexivity].
    split; [|eauto]. intros s Hs. rewrite forallb_forall in Hall.
    apply Nat.eqb_eq, Hall, in_map. exact Hs. }
  apply Exists_exists in Hex as (s & Hs & Hne).
  destruct (Hcat sample_features) as [[Hf [m Hm]]|Hm]; rewrite Hm; [|reflexivity].
  destruct (Hcat sample_labels) as [[Hl _]|Hl]; [|rewrite Hl; reflexivity].
  exfalso. destruct Hne as [Hne|Hne]; [apply Hne, Hf | apply Hne, Hl]; exact Hs.
Qed.

Lemma chunks_fuel_one {A} : forall fuel (l : list A),
  length l <= fuel -> chunks_fuel fuel 1 l = map (fun x => [x]) l.
Proof.
  induction fuel as [|fuel IH]; intros [|a l] Hl; cbn in *; try reflexivity; try lia.
  rewrite drop_0. f_equal. apply IH. lia.
Qed.

(** With batches of one item the loader yields the items themselves. *)
Lemma DataLoader_iter_one ds :
  DataLoader_iter {| dataset := ds; loader_batch_size := 1 |} = map Ok (items ds).
Proof.
  unfold DataLoader_iter, chunks; cbn [dataset loader_batch_size].
  rewrite chunks_fuel_one by reflexivity. rewrite map_map.
  apply map_ext. intros s. apply collate_fn_one.
Qed.

(** ** The loader on consistent data *)

Lemma chunks_fuel_Forall {A} (P : A -> Prop) size : forall fuel (l : list A),
  0 < size -> Forall P l ->
  Forall (fun c => c <> [] /\ Forall P c) (chunks_fuel fuel size l).
Proof.
  induction fuel as [|fuel IH]; intros l Hs Hl; cbn [chunks_fuel]; [constructor|].
  destruct l as [|a l]; [constructor|]. constructor.
  - split; [destruct size; [lia | discriminate]|]. apply Forall_take. exact Hl.
  - apply IH; [exact Hs | apply Forall_drop; exact Hl].
Qed.

Lemma collate_fn_common_width (sample : list Sample) f l :
  sample <> [] ->
  Forall (fun s => ncols (sample_features s) = f /\ ncols (sample_labels s) = l) sample ->
  collate_fn sample
  = Ok (batch (map sample_graph sample),
        {| ncols := f; rows := all_rows sample_features sample |},
        {| ncols := l; rows := all_rows sample_labels sample |}).
Proof.
  intros Hne Hw. unfold collate_fn. destruct sample as [|s0 rest]; [congruence|].
  set (sample := s0 :: rest) in *.
  rewrite (np_concatenate_Ok (map sample_features sample) f).
  - rewrite (np_concatenate_Ok (map sample_labels sample) l).
    + cbn [mbind result_bind]. unfold all_rows. rewrite !map_map. reflexivity.
    + discriminate.
    + apply Forall_map. eapply Forall_impl; [|exact Hw]. intros s Hs. exact (proj2 Hs).
  - discriminate.
  - apply Forall_map. eapply Forall_impl; [|exact Hw]. intros s Hs. exact (proj1 Hs).
Qed.

Lemma all_rows_app part (a b : list Sample) :
  all_rows part (a ++ b) = all_rows part a ++ all_rows part b.
Proof. unfold all_rows. rewrite map_app, concat_app. reflexivity. Qed.

Lemma collate_chunks f l (cs : list (list Sample)) :
  Forall (fun c => c <> [] /\
            Forall (fun s => ncols (sample_features s) = f /\ ncols (sample_labels s) = l) c)
         cs ->
  exists batches,
    map collate_fn cs = map Ok batches /\
    concat (map (fun b => rows (sample_features b)) batches)
    = all_rows sample_features (concat cs) /\
    concat (map (fun b => rows (sample_labels b)) batches)
    = all_rows sample_labels (concat cs).
Proof.
  induction 1 as [|c cs [Hne Hw] _ (batches & Hb & Hf & Hl)].
  - exists []. auto.
  - eexists (_ :: batches). cbn [map concat].
    rewrite (collate_fn_common_width c f l Hne Hw), Hb, !all_rows_app, Hf, Hl.
    split; [reflexivity|]. split; reflexivity.
Qed.

(** X8.  On a dataset whose samples share one feature width and one label
    width, a loader with a positive batch size never fails: every batch
    collates, and the batches hold, in order, exactly the feature rows and
    the label rows of the dataset: nothing is dropped, repeated or moved. *)
Theorem DataLoader_iter_collates (dl : DataLoader) (f l : nat) :
  0 < loader_batch_size dl ->
  Forall (fun s => ncols (sample_features s) = f /\ ncols (sample_labels s) = l)
         (items (dataset dl)) ->
  exists batches,
    DataLoader_iter dl = map Ok batches /\
    concat (map (fun b => rows (sample_features b)) batches)
    = all_rows sample_features (items (dataset dl)) /\
    concat (map (fun b => rows (sample_labels b)) batches)
    = all_rows sample_labels (items (dataset dl)).
Proof.
  intros Hs Hw. unfold DataLoader_iter.
  destruct (collate_chunks f l (chunks (loader_batch_size dl) (items (dataset dl))))
    as (batches & Hb & Hf & Hl).
  { apply chunks_fuel_Forall; assumption. }
  rewrite chunks_concat in Hf, Hl by exact Hs. eauto.
Qed.

(** * The script *)

Section run_facts.
Context `{L : Libraries}.

Lemma foldlM_map {A B C} (f : A -> B -> result A) (h : C -> B) (l : list C) : forall a,
  foldlM f a (map h l) = foldlM (fun a c => f a (h c)) a l.
Proof.
  induction l as [|c l IH]; intros a; simpl; [reflexivity|].
  destruct (f a (h c)) as [a'|e]; simpl; [apply IH | reflexivity].
Qed.

(** C10.  [BasicGraphModel.logits] returns what the forward pass returns:
    assigning the model's graph on every layer changes no layer's own
    fields and not the graph of the model, so the result is the same. *)
Theorem logits_is_forward (self : BasicGraphModel) (features : Matrix) :
  snd (BasicGraphModel_logits self features) = BasicGraphModel_forward self features /\
  bgm_g (fst (BasicGraphModel_logits self features)) = bgm_g self /\
  map conv (layers (fst (BasicGraphModel_logits self features))) = map conv (layers self) /\
  Forall (fun layer => layer_g layer = Some (bgm_g self))
         (layers (fst (BasicGraphModel_logits self features))).
Proof.
  unfold BasicGraphModel_logits, BasicGraphModel_forward; cbn [fst snd bgm_g layers].
  split; [|split; [reflexivity|split]].
  - rewrite foldlM_map. reflexivity.
  - rewrite map_map. reflexivity.
  - apply Forall_forall. intros l Hl. apply in_map_iff in Hl as (l0 & <- & _). reflexivity.
Qed.


Lemma M_bind_unfold {A B} (m : M A) (f : A -> M B) s :
  (m ≫= f) s = match m s with
               | (s', Ok a) => f a s'
               | (s', Raise e) => (s', Raise e)
               end.
Proof. reflexivity. Qed.

Ltac msimpl :=
  repeat (rewrite M_bind_unfold);
  cbn [mbind mret M_bind M_ret result_bind result_ret get_model put_model
       get_optimizer put_optimizer is_grad_enabled emit lift torch_save torch_load
       set_model set_optimizer set_grad_enabled set_model_state_file add_event
       model optimizer grad_enabled model_state_file trace fst snd].

Ltac msimpl_in H :=
  repeat (rewrite M_bind_unfold in H);
  cbn [mbind mret M_bind M_ret result_bind result_ret get_model put_model
       get_optimizer put_optimizer is_grad_enabled emit lift torch_save torch_load
       set_model set_optimizer set_grad_enabled set_model_state_file add_event
       model optimizer grad_enabled model_state_file trace fst snd] in H.

Lemma entry_matrix_map f t i j :
  i < nrows t -> j < length (row t i) -> entry (matrix_map f t) i j = f (entry t i j).
Proof.
  intros Hi Hj. unfold entry, row, matrix_map; cbn [rows].
  rewrite (nth_indep _ [] (map f [])) by (rewrite length_map; exact Hi).
  rewrite (map_nth (map f) (rows t) [] i).
  rewrite (nth_indep _ 0%R (f 0%R)) by (rewrite length_map; exact Hj).
  apply (map_nth f).
Qed.

(** C3.  [evaluate] runs the forward pass with the gradient mode off, in
    evaluation mode and on the graph it is given; it computes the loss of
    the output against the labels, thresholds the raw output at 0.5 (1 when
    the entry is at least 0.5, 0 otherwise) and returns the micro F1 of that
    prediction against the labels together with the loss.  The gradient
    mode is restored on the way out. *)
Theorem evaluate_spec (features : Matrix) (subgraph : DGLGraph) (labels : Matrix)
    (loss_fcn : Matrix -> Matrix -> result R) (s : State) :
  let m1 := model_set_g subgraph (model_set_training false (model s)) in
  evaluate features subgraph labels loss_fcn s =
    ({| model := fst (Model_logits m1 features);
        optimizer := optimizer s;
        grad_enabled := grad_enabled s;
        model_state_file := model_state_file s;
        trace := trace s ++ [Forward_pass false false (Some subgraph)] |},
     output ← snd (Model_logits m1 features);
     loss_data ← loss_fcn output labels;
     score ← f1_score_micro labels (np_where_ge output (1 / 2));
     Ok (score, loss_data)) /\
  forall output i j, i < nrows output -> j < length (row output i) ->
    ((entry output i j >= 1 / 2)%R -> entry (np_where_ge output (1 / 2)) i j = 1%R) /\
    ((entry output i j < 1 / 2)%R -> entry (np_where_ge output (1 / 2)) i j = 0%R).
Proof.
  intros m1. split.
  - assert (Hg : model_g m1 = Some subgraph) by (unfold m1; destruct (model s); reflexivity).
    assert (Ht : model_training m1 = false) by (unfold m1; destruct (model s); reflexivity).
    unfold evaluate, no_grad, model_logits. repeat msimpl. fold m1. rewrite Hg, Ht.
    destruct (Model_logits m1 features) as [m2 out]. repeat msimpl.
    destruct out as [output|e]; msimpl; [|reflexivity].
    destruct (loss_fcn output labels) as [loss_data|e]; msimpl; [|reflexivity].
    destruct (f1_score_micro labels _) as [score|e]; reflexivity.
  - intros output i j Hi Hj. unfold np_where_ge. rewrite entry_matrix_map by assumption.
    destruct (Rge_dec _ _); split; intros; try reflexivity; lra.
Qed.


(** C8.  With [--mode test] and no weight file, [main] raises
    [FileNotFoundError] at the load; the only event of the run is the failed
    load, so no forward pass of the fresh model takes place. *)
Theorem test_mode_without_file (args : Args) (s : State) :
  args_mode args = "test"%string -> model_state_file s = None ->
  (0 < args_batch_size args)%Z ->
  let m0 := construct_model args PPI_train (ncols (features PPI_train))
                            (ncols (labels PPI_train)) in
  main args s =
    (add_event (Torch_load None) (set_optimizer (Adam (state_dict m0)) (set_model m0 s)),
     Raise FileNotFoundError).
Proof.
  intros Hmode Hfile Hbs m0. unfold main, train_and_test, DataLoader_init.
  destruct (decide (args_batch_size args <= 0)%Z) as [Hle|_]; [lia|].
  rewrite Hmode. change (String.eqb "test" "train") with false.
  repeat msimpl. fold m0. rewrite Hfile. reflexivity.
Qed.

(** ** Loops *)

Lemma forM_Ok_length {A B} (f : A -> M B) (l : list A) : forall s bs,
  snd (forM f l s) = Ok bs -> length bs = length l.
Proof.
  induction l as [|a l IH]; intros s bs Hr; cbn [forM] in Hr.
  - injection Hr as <-. reflexivity.
  - repeat (msimpl_in Hr). destruct (f a s) as [s1 [b|e]]; [|discriminate].
    repeat (msimpl_in Hr). specialize (IH s1).
    destruct (forM f l s1) as [s2 [bs'|e]]; [|discriminate].
    repeat (msimpl_in Hr). injection Hr as <-. simpl. f_equal. apply (IH bs'). reflexivity.
Qed.

(** The states between the turns of a loop, up to the turn that raises. *)
Lemma forM_states {A B} (f : A -> M B) (l : list A) : forall s,
  exists (n : nat) (st : nat -> State),
    n <= length l /\ st 0 = s /\
    (forall i, i < n -> exists a b, l !! i = Some a /\ f a (st i) = (st (S i), Ok b)) /\
    match snd (forM f l s) with
    | Ok _ => n = length l /\ st n = fst (forM f l s)
    | Raise e => exists a, l !! n = Some a /\ f a (st n) = (fst (forM f l s), Raise e)
    end.
Proof.
  induction l as [|a l IH]; intros s; cbn [forM].
  - exists 0, (fun _ => s). cbn. repeat split; auto. intros i Hi. lia.
  - repeat msimpl. destruct (f a s) as [s1 [b|e]] eqn:Hf.
    + repeat msimpl. destruct (IH s1) as (n & st & Hn & H0 & Hstep & Hend).
      exists (S n), (fun i => match i with 0 => s | S i' => st i' end).
      split; [simpl; lia|]. split; [reflexivity|]. split.
      * intros [|i] Hi.
        -- exists a, b. rewrite H0. split; [reflexivity | exact Hf].
        -- destruct (Hstep i ltac:(lia)) as (a' & b' & Ha' & Hf'). exists a', b'. auto.
      * destruct (forM f l s1) as [s2 [bs|e]]; cbn [fst snd] in *.
        -- destruct Hend as [-> ->]. split; reflexivity.
        -- exact Hend.
    + exists 0, (fun _ => s). split; [simpl; lia|]. split; [reflexivity|]. split.
      * intros i Hi. lia.
      * cbn. exists a. split; [reflexivity | exact Hf].
Qed.

Lemma train_epoch_Ok loss_fcn dl test_dataset epoch s s' u :
  train_epoch loss_fcn dl test_dataset epoch s = (s', Ok u) ->
  epoch_run loss_fcn dl test_dataset epoch s s'.
Proof.
  unfold train_epoch, epoch_run. repeat msimpl.
  destruct (forM (train_batch loss_fcn) _ _) as [s1 [losses|e]] eqn:Hb; [|discriminate].
  repeat msimpl. intros Hrun. exists losses, s1. split; [reflexivity|]. split.
  { erewrite forM_Ok_length by (rewrite Hb; reflexivity).
    unfold enumerate. rewrite length_combine, length_seq. lia. }
  destruct (epoch mod 5 =? 0) eqn:Hmod.
  - apply Nat.eqb_eq in Hmod. split; [|intros; contradiction]. intros _.
    unfold periodic_evaluation in Hrun. repeat (msimpl_in Hrun).
    destruct (forM (evaluation_turn loss_fcn) _ _) as [s2 [scores|e]] eqn:He; [|discriminate].
    repeat (msimpl_in Hrun). injection Hrun as <- _. exists scores, s2.
    split; [reflexivity|]. split; [|reflexivity].
    eapply forM_Ok_length. rewrite He. reflexivity.
  - apply Nat.eqb_neq in Hmod. split; [intros; contradiction|]. intros _.
    repeat (msimpl_in Hrun). injection Hrun as <- _. reflexivity.
Qed.

(** C7.  A training run goes through its epochs in order; epoch after epoch
    (up to the one that raises, if one does) the mini-batches are trained and
    the mean batch loss is printed, and exactly on the epochs whose index is
    a multiple of five, the first one included, the items of the test
    dataset are evaluated one graph at a time and the mean of their micro F1
    scores is printed. *)
Theorem train_epochs_log loss_fcn dl test_dataset (epochs : Z) (s : State) :
  exists (n : nat) (st : nat -> State),
    n <= Z.to_nat epochs /\ st 0 = s /\
    (forall epoch, epoch < n ->
       epoch_run loss_fcn dl test_dataset epoch (st epoch) (st (S epoch))) /\
    match snd (train loss_fcn dl test_dataset epochs s) with
    | Ok _ =>
        n = Z.to_nat epochs /\ st n = fst (train loss_fcn dl test_dataset epochs s)
    | Raise e =>
        n < Z.to_nat epochs /\
        train_epoch loss_fcn dl test_dataset n (st n)
          = (fst (train loss_fcn dl test_dataset epochs s), Raise e)
    end.
Proof.
  destruct (forM_states (train_epoch loss_fcn dl test_dataset) (seq 0 (Z.to_nat epochs)) s)
    as (n & st & Hn & H0 & Hstep & Hend).
  rewrite length_seq in Hn, Hend.
  exists n, st. split; [exact Hn|]. split; [exact H0|]. split.
  - intros epoch Hlt. destruct (Hstep epoch Hlt) as (a & u & Ha & Hf).
    apply lookup_seq in Ha as [-> _]. eapply train_epoch_Ok. exact Hf.
  - unfold train. repeat msimpl.
    destruct (forM _ (seq 0 (Z.to_nat epochs)) s) as [s' [us|e]]; cbn [fst snd] in *.
    + exact Hend.
    + destruct Hend as (a & Ha & Hf). pose proof (lookup_lt_Some _ _ _ Ha) as Hlt.
      rewrite length_seq in Hlt. apply lookup_seq in Ha as [-> _]. auto.
Qed.

(** ** What the parts of a run respect *)

Section respects_rules.
Variables (k : bool) (P : Event -> Prop).

Lemma respects_ret {A} (a : A) (Q : A -> Prop) : Q a -> respects k P (mret a) Q.
Proof.
  intros HQ s Hk. cbn. split; [exact Hk|]. split.
  - exists []. rewrite app_nil_r. split; [reflexivity | constructor].
  - intros a' [= <-]. exact HQ.
Qed.

Lemma respects_lift {A} (r : result A) (Q : A -> Prop) :
  (forall a, r = Ok a -> Q a) -> respects k P (lift r) Q.
Proof.
  intros HQ s Hk. cbn. split; [exact Hk|]. split.
  - exists []. rewrite app_nil_r. split; [reflexivity | constructor].
  - exact HQ.
Qed.

Lemma respects_bind {A B} (m : M A) (f : A -> M B) (Q : A -> Prop) (Q' : B -> Prop) :
  respects k P m Q -> (forall a, Q a -> respects k P (f a) Q') ->
  respects k P (m ≫= f) Q'.
Proof.
  intros Hm Hf s Hk. rewrite M_bind_unfold.
  destruct (Hm s Hk) as (Hk1 & (evs1 & Ht1 & HP1) & HQ).
  destruct (m s) as [s1 [a|e]]; cbn [fst snd] in *.
  - destruct (Hf a (HQ a eq_refl) s1 Hk1) as (Hk2 & (evs2 & Ht2 & HP2) & HQ2).
    split; [exact Hk2|]. split; [|exact HQ2].
    exists (evs1 ++ evs2). rewrite Ht2, Ht1, app_assoc. split; [reflexivity|].
    apply Forall_app; split; assumption.
  - split; [exact Hk1|]. split; [eauto | discriminate].
Qed.

Lemma respects_weaken {A} (c : M A) (Q Q' : A -> Prop) :
  respects k P c Q -> (forall a, Q a -> Q' a) -> respects k P c Q'.
Proof.
  intros Hc HQ s Hk. destruct (Hc s Hk) as (H1 & H2 & H3). auto.
Qed.

Lemma respects_emit e : P e -> respects k P (emit e) (fun _ => True).
Proof.
  intros He s Hk. cbn. split; [exact Hk|]. split; [|auto].
  exists [e]. split; [reflexivity | repeat constructor; exact He].
Qed.

Lemma respects_get_model : respects k P get_model (fun m => is_BGM m = k).
Proof.
  intros s Hk. cbn. split; [exact Hk|]. split.
  - exists []. rewrite app_nil_r. split; [reflexivity | constructor].
  - intros a [= <-]. exact Hk.
Qed.

Lemma respects_put_model m : is_BGM m = k -> respects k P (put_model m) (fun _ => True).
Proof.
  intros Hm s Hk. cbn. split; [exact Hm|]. split; [|auto].
  exists []. rewrite app_nil_r. split; [reflexivity | constructor].
Qed.

Lemma respects_get_optimizer : respects k P get_optimizer (fun _ => True).
Proof.
  intros s Hk. cbn. split; [exact Hk|]. split; [|auto].
  exists []. rewrite app_nil_r. split; [reflexivity | constructor].
Qed.

Lemma respects_put_optimizer o : respects k P (put_optimizer o) (fun _ => True).
Proof.
  intros s Hk. cbn. split; [exact Hk|]. split; [|auto].
  exists []. rewrite app_nil_r. split; [reflexivity | constructor].
Qed.

Lemma respects_is_grad_enabled : respects k P is_grad_enabled (fun _ => True).
Proof.
  intros s Hk. cbn. split; [exact Hk|]. split; [|auto].
  exists []. rewrite app_nil_r. split; [reflexivity | constructor].
Qed.

Lemma respects_no_grad {A} (body : M A) (Q : A -> Prop) :
  respects k P body Q -> respects k P (no_grad body) Q.
Proof.
  intros Hb s Hk. unfold no_grad.
  destruct (Hb (set_grad_enabled false s) Hk) as (H1 & H2 & H3).
  destruct (body (set_grad_enabled false s)) as [s' r]. cbn in *. auto.
Qed.

Lemma respects_forM {A B} (f : A -> M B) (l : list A) :
  (forall a, respects k P (f a) (fun _ => True)) ->
  respects k P (forM f l) (fun _ => True).
Proof.
  intros Hf. induction l as [|a l IH]; cbn [forM].
  - apply respects_ret. exact I.
  - eapply respects_bind; [apply Hf|]. intros b _.
    eapply respects_bind; [apply IH|]. intros bs _. apply respects_ret. exact I.
Qed.

End respects_rules.

Lemma is_BGM_set_g g m : is_BGM (model_set_g g m) = is_BGM m.
Proof. destruct m; reflexivity. Qed.

Lemma is_BGM_set_training b m : is_BGM (model_set_training b m) = is_BGM m.
Proof. destruct m; reflexivity. Qed.

Lemma is_BGM_Model_logits m features : is_BGM (fst (Model_logits m features)) = is_BGM m.
Proof. destruct m; reflexivity. Qed.

Lemma is_BGM_load m sd m' : load_state_dict m sd = Ok m' -> is_BGM m' = is_BGM m.
Proof.
  destruct m as [b|g], sd as [ps|lw lb aw ab]; cbn [load_state_dict]; try discriminate.
  - destruct (load_layers (layers b) ps); cbn [mbind result_bind]; [|discriminate].
    intros [= <-]. reflexivity.
  - destruct (_ && _); [|discriminate]. intros [= <-]. reflexivity.
Qed.

Lemma respects_model_logits k P features :
  (forall grad training g, P (Forward_pass grad training g)) ->
  respects k P (model_logits features) (fun _ => True).
Proof.
  intros HP. unfold model_logits.
  eapply respects_bind; [apply respects_get_model|]. intros m Hm.
  eapply respects_bind; [apply respects_is_grad_enabled|]. intros grad _.
  eapply respects_bind; [apply respects_emit, HP|]. intros _ _.
  pose proof (is_BGM_Model_logits m features) as Hl.
  destruct (Model_logits m features) as [m' out]. cbn [fst] in Hl.
  eapply respects_bind; [apply respects_put_model; congruence|]. intros _ _.
  apply respects_lift. auto.
Qed.

Lemma respects_evaluate k P features subgraph labels loss_fcn :
  (forall grad training g, P (Forward_pass grad training g)) ->
  respects k P (evaluate features subgraph labels loss_fcn) (fun _ => True).
Proof.
  intros HP. unfold evaluate. apply respects_no_grad.
  eapply respects_bind; [apply respects_get_model|]. intros m Hm.
  eapply respects_bind; [apply respects_put_model; rewrite is_BGM_set_training; exact Hm|].
  intros _ _.
  eapply respects_bind; [apply respects_get_model|]. intros m1 Hm1.
  eapply respects_bind; [apply respects_put_model; rewrite is_BGM_set_g; exact Hm1|].
  intros _ _.
  eapply respects_bind; [apply respects_model_logits, HP|]. intros output _.
  eapply respects_bind; [apply respects_lift with (Q := fun _ => True); auto|]. intros loss_data _.
  eapply respects_bind; [apply respects_lift with (Q := fun _ => True); auto|]. intros score _.
  apply respects_ret. exact I.
Qed.

Lemma respects_train_batch k P loss_fcn turn :
  (forall grad training g, P (Forward_pass grad training g)) ->
  (forall b, P (Print_batch b)) ->
  respects k P (train_batch loss_fcn turn) (fun _ => True).
Proof.
  intros HF HB. unfold train_batch. destruct turn as [batch data].
  eapply respects_bind; [apply respects_lift with (Q := fun _ => True); auto|].
  intros [[subgraph features] labels] _.
  eapply respects_bind; [apply respects_emit, HB|]. intros _ _.
  eapply respects_bind; [apply respects_get_model|]. intros m Hm.
  eapply respects_bind; [apply respects_put_model; rewrite is_BGM_set_g; exact Hm|].
  intros _ _.
  eapply respects_bind; [apply respects_model_logits, HF|]. intros logits _.
  eapply respects_bind; [apply respects_lift with (Q := fun _ => True); auto|]. intros loss _.
  eapply respects_bind; [apply respects_get_model|]. intros m1 Hm1.
  eapply respects_bind; [apply respects_get_optimizer|]. intros o _.
  destruct (optimizer_step o _ (state_dict m1)) as [o' sd'].
  eapply respects_bind.
  { apply respects_lift with (Q := fun m' => is_BGM m' = k).
    intros m' Hl. rewrite (is_BGM_load _ _ _ Hl). exact Hm1. }
  intros m' Hm'.
  eapply respects_bind; [apply respects_put_model; exact Hm'|]. intros _ _.
  eapply respects_bind; [apply respects_put_optimizer|]. intros _ _.
  apply respects_ret. exact I.
Qed.


Lemma respects_train k loss_fcn dl test_dataset epochs :
  respects k not_testing (train loss_fcn dl test_dataset epochs) (fun _ => True).
Proof.
  assert (HF : forall grad training g, not_testing (Forward_pass grad training g))
    by (intros; discriminate).
  unfold train.
  eapply respects_bind; [|intros; apply respects_ret; exact I].
  apply respects_forM. intros epoch. unfold train_epoch.
  eapply respects_bind; [apply respects_get_model|]. intros m Hm.
  eapply respects_bind; [apply respects_put_model; rewrite is_BGM_set_training; exact Hm|].
  intros _ _.
  eapply respects_bind; [apply respects_emit; discriminate|]. intros _ _.
  eapply respects_bind.
  { apply respects_forM. intros turn. apply respects_train_batch; [exact HF|]. intros; discriminate. }
  intros losses _.
  eapply respects_bind; [apply respects_emit; discriminate|]. intros _ _.
  destruct (epoch mod 5 =? 0); [|apply respects_ret; exact I].
  unfold periodic_evaluation.
  eapply respects_bind.
  { apply respects_forM. intros [[subgraph features] labels]. unfold evaluation_turn.
    eapply respects_bind; [apply respects_evaluate; exact HF|]. intros r _.
    apply respects_ret. exact I. }
  intros scores _. eapply respects_weaken; [apply respects_emit; discriminate | auto].
Qed.

Lemma respects_test k loss_fcn dl :
  respects k (fun _ => True) (test loss_fcn dl) (fun _ => True).
Proof.
  unfold test.
  eapply respects_bind; [apply respects_emit; exact I|]. intros _ _.
  eapply respects_bind.
  { apply respects_forM. intros turn. unfold test_turn.
    eapply respects_bind; [apply respects_lift with (Q := fun _ => True); auto|].
    intros [[subgraph features] labels] _.
    eapply respects_bind; [apply respects_evaluate; auto|]. intros r _.
    apply respects_ret. exact I. }
  intros scores _.
  eapply respects_bind; [apply respects_emit; exact I|]. intros _ _.
  apply respects_ret. exact I.
Qed.

(** ** Loading a snapshot *)

Lemma load_layers_state ls : forall ps ls',
  load_layers ls ps = Ok ls' ->
  map (fun l => (conv_weight (conv l), conv_bias (conv l))) ls' = ps.
Proof.
  induction ls as [|l ls IH]; intros [|p ps] ls' Hl; cbn [load_layers] in Hl; try discriminate.
  - injection Hl as <-. reflexivity.
  - unfold load_layer in Hl. destruct (_ && _); [|discriminate]. cbn [mbind result_bind] in Hl.
    destruct (load_layers ls ps) as [rest|e] eqn:Hrest; [|discriminate].
    cbn [mbind result_bind] in Hl. injection Hl as <-. cbn. rewrite (IH ps rest Hrest).
    destruct p; reflexivity.
Qed.

Lemma state_dict_load m sd m' : load_state_dict m sd = Ok m' -> state_dict m' = sd.
Proof.
  destruct m as [b|g], sd as [ps|lw lb aw ab]; cbn [load_state_dict]; try discriminate.
  - destruct (load_layers (layers b) ps) as [ls|e] eqn:Hl; cbn [mbind result_bind]; [|discriminate].
    intros [= <-]. cbn. f_equal. apply (load_layers_state _ _ _ Hl).
  - destruct (_ && _); [|discriminate]. intros [= <-]. reflexivity.
Qed.


Lemma respects_events k (P P' : Event -> Prop) {A} (c : M A) Q :
  (forall e, P e -> P' e) -> respects k P c Q -> respects k P' c Q.
Proof.
  intros HP Hc s Hk. destruct (Hc s Hk) as (H1 & (evs & Ht & Hevs) & H3).
  split; [exact H1|]. split; [|exact H3].
  exists evs. split; [exact Ht|]. eapply Forall_impl; [|exact Hevs]. exact HP.
Qed.

Lemma respects_torch_save k P sd :
  P (Torch_save sd) -> respects k P (torch_save sd) (fun _ => True).
Proof.
  intros HP s Hk. cbn. split; [exact Hk|]. split; [|auto].
  exists [Torch_save sd]. split; [reflexivity | repeat constructor; exact HP].
Qed.

Lemma respects_torch_load k P :
  (forall f, P (Torch_load f)) -> respects k P torch_load (fun _ => True).
Proof.
  intros HP s Hk. cbn. split; [exact Hk|]. split; [|auto].
  exists [Torch_load (model_state_file s)]. split; [reflexivity | repeat constructor; apply HP].
Qed.

Lemma respects_train_and_test k args loss_fcn dl1 dl2 tds :
  respects k (fun _ => True) (train_and_test args loss_fcn dl1 dl2 tds) (fun _ => True).
Proof.
  unfold train_and_test.
  eapply respects_bind with (Q := fun _ => True).
  { destruct (String.eqb _ _); [|apply respects_ret; exact I].
    eapply respects_bind.
    { eapply respects_events; [|apply respects_train]. auto. }
    intros _ _.
    eapply respects_bind; [apply respects_get_model|]. intros m _.
    apply respects_torch_save. exact I. }
  intros _ _.
  eapply respects_bind; [apply respects_torch_load; auto|]. intros sd _.
  eapply respects_bind; [apply respects_get_model|]. intros m Hm.
  eapply respects_bind.
  { apply respects_lift with (Q := fun m' => is_BGM m' = k).
    intros m' Hl. rewrite (is_BGM_load _ _ _ Hl). exact Hm. }
  intros m' Hm'.
  eapply respects_bind; [apply respects_put_model; exact Hm'|]. intros _ _.
  apply respects_test.
Qed.

(** C6.  [main] builds the graph-convolution model exactly when [--model]
    is "BGM", and the attention model for every other string; the
    construction raises nothing: once the two loaders are built, the run
    continues into the train-and-test block with the model built, and that
    kind of model is the one the run ends with. *)
Theorem main_model_selection (args : Args) (s : State) :
  let nf := ncols (features PPI_train) in
  let nc := ncols (labels PPI_train) in
  let m0 := construct_model args PPI_train nf nc in
  (args_model args = "BGM"%string ->
   m0 = BGM (BasicGraphModel_init (graph PPI_train) 2 nf 256 nc F_elu)) /\
  (args_model args <> "BGM"%string ->
   m0 = GAT (GraphAttentionNetwork_init nf nc F_elu (2 / 10)
               (Linear_init nf nc) (Linear_init (2 * nc) 1))) /\
  ((0 < args_batch_size args)%Z ->
   (exists dl1 dl2,
      main args s =
      train_and_test args BCEWithLogitsLoss dl1 dl2 PPI_test
        (set_optimizer (Adam (state_dict m0)) (set_model m0 s))) /\
   is_BGM (model (fst (main args s))) = is_BGM m0).
Proof.
  intros nf nc m0.
  split; [|split].
  - intros Hm. unfold m0, construct_model. rewrite Hm. reflexivity.
  - intros Hm. unfold m0, construct_model.
    destruct (String.eqb_spec (args_model args) "BGM"); [contradiction | reflexivity].
  - intros Hbs.
    assert (Hmain : exists dl1 dl2,
       main args s =
       train_and_test args BCEWithLogitsLoss dl1 dl2 PPI_test
         (set_optimizer (Adam (state_dict m0)) (set_model m0 s))).
    { unfold main, DataLoader_init.
      destruct (decide (args_batch_size args <= 0)%Z) as [Hle|_]; [lia|].
      repeat msimpl. eauto. }
    split; [exact Hmain|].
    destruct Hmain as (dl1 & dl2 & ->).
    apply (respects_train_and_test (is_BGM m0)). reflexivity.
Qed.

(** Before anything else [main] builds the loaders, and a batch size that
    is not positive is refused there. *)
Lemma main_batch_size_not_positive (args : Args) (s : State) :
  (args_batch_size args <= 0)%Z -> main args s = (s, Raise ValueError).
Proof.
  intros Hle. unfold main, DataLoader_init.
  destruct (decide (args_batch_size args <= 0)%Z) as [_|Hgt]; [reflexivity | contradiction].
Qed.

Lemma train_and_test_reloads args loss_fcn dl1 dl2 tds (s0 : State) :
  (exists e pre,
     snd (train_and_test args loss_fcn dl1 dl2 tds s0) = Raise e /\
     trace (fst (train_and_test args loss_fcn dl1 dl2 tds s0)) = trace s0 ++ pre /\
     Forall not_testing pre) \/
  (exists s1 sd m' pre,
     trace s1 = trace s0 ++ pre ++ [Torch_load (Some sd)] /\
     Forall not_testing pre /\
     model_state_file s1 = Some sd /\
     load_state_dict (model s1) sd = Ok m' /\
     state_dict m' = sd /\
     train_and_test args loss_fcn dl1 dl2 tds s0 = test loss_fcn dl2 (set_model m' s1) /\
     (args_mode args = "train"%string -> exists pre', pre = pre' ++ [Torch_save sd])).
Proof.
  unfold train_and_test.
  destruct (String.eqb_spec (args_mode args) "train") as [Hmode|Hmode].
  - destruct (respects_train (is_BGM (model s0)) loss_fcn dl1 tds (args_epochs args) s0 eq_refl)
      as (_ & (evs & Ht & Hevs) & _).
    repeat msimpl.
    destruct (train loss_fcn dl1 tds (args_epochs args) s0) as [st [[]|e]]; cbn [fst snd] in *.
    + repeat msimpl. set (sd := state_dict (model st)).
      destruct (load_state_dict (model st) sd) as [m'|e] eqn:Hload.
      * right. repeat msimpl.
        exists (add_event (Torch_load (Some sd)) (add_event (Torch_save sd) (set_model_state_file sd st))),
               sd, m', (evs ++ [Torch_save sd]).
        cbn [add_event set_model_state_file trace model model_state_file].
        split; [rewrite Ht, <- !app_assoc; reflexivity|].
        split; [apply Forall_app; split; [exact Hevs | repeat constructor; discriminate]|].
        split; [reflexivity|]. split; [exact Hload|].
        split; [exact (state_dict_load _ _ _ Hload)|]. split; [reflexivity|]. eauto.
      * left. repeat msimpl. exists e, (evs ++ [Torch_save sd; Torch_load (Some sd)]).
        split; [reflexivity|].
        split; [rewrite Ht, <- !app_assoc; reflexivity|].
        apply Forall_app; split; [exact Hevs | repeat constructor; discriminate].
    + left. exists e, evs. split; [reflexivity|]. split; [exact Ht | exact Hevs].
  - repeat msimpl. destruct (model_state_file s0) as [sd|] eqn:Hfile.
    + repeat msimpl. destruct (load_state_dict (model s0) sd) as [m'|e] eqn:Hload.
      * right. repeat msimpl.
        exists (add_event (Torch_load (Some sd)) s0), sd, m', [].
        cbn [add_event trace model model_state_file].
        split; [reflexivity|]. split; [constructor|]. split; [exact Hfile|].
        split; [exact Hload|]. split; [exact (state_dict_load _ _ _ Hload)|].
        split; [reflexivity | intros; contradiction].
      * left. repeat msimpl. exists e, [Torch_load (Some sd)].
        split; [reflexivity|]. split; [reflexivity | repeat constructor; discriminate].
    + left. exists FileNotFoundError, [Torch_load None].
      split; [reflexivity|]. split; [reflexivity | repeat constructor; discriminate].
Qed.

(** C5.  In every run of [main], whatever the mode, either the run raises
    before the final evaluation starts, or the final evaluation is [test] on
    the model whose parameters were just read back from the weight file; in
    train mode the read follows the write of that same snapshot. *)
Theorem main_reloads_before_test (args : Args) (s : State) :
  (exists e pre,
     snd (main args s) = Raise e /\
     trace (fst (main args s)) = trace s ++ pre /\
     Forall not_testing pre) \/
  (exists s1 sd m' pre test_dataloader,
     trace s1 = trace s ++ pre ++ [Torch_load (Some sd)] /\
     Forall not_testing pre /\
     model_state_file s1 = Some sd /\
     load_state_dict (model s1) sd = Ok m' /\
     state_dict m' = sd /\
     DataLoader_init PPI_test (args_batch_size args) = Ok test_dataloader /\
     main args s = test BCEWithLogitsLoss test_dataloader (set_model m' s1) /\
     (args_mode args = "train"%string -> exists pre', pre = pre' ++ [Torch_save sd])).
Proof.
  unfold main, DataLoader_init.
  destruct (decide (args_batch_size args <= 0)%Z) as [Hle|Hgt].
  - left. exists ValueError, []. cbn. rewrite app_nil_r. repeat split. constructor.
  - repeat msimpl.
    match goal with
    | |- context [train_and_test _ _ ?dl1 ?dl2 _ ?s0] =>
        assert (Hs0 : trace s0 = trace s) by reflexivity;
        destruct (train_and_test_reloads args BCEWithLogitsLoss dl1 dl2 PPI_test s0)
          as [(e & pre & Hr & Ht & Hp)|(s1 & sd & m' & pre & Ht & Hp & Hf & Hl & Hsd & Hrun & Hmode)]
    end.
    + left. exists e, pre. rewrite <- Hs0. auto.
    + right. exists s1, sd, m', pre. eexists. rewrite <- Hs0.
      split; [exact Ht|]. split; [exact Hp|]. split; [exact Hf|]. split; [exact Hl|].
      split; [exact Hsd|]. split; [reflexivity|]. split; [exact Hrun | exact Hmode].
Qed.

(** ** Parameters under the operations on a model *)

Lemma state_dict_set_g g m : state_dict (model_set_g g m) = state_dict m.
Proof. destruct m; reflexivity. Qed.

Lemma state_dict_set_training b m : state_dict (model_set_training b m) = state_dict m.
Proof. destruct m; reflexivity. Qed.

Lemma state_dict_Model_logits m features :
  state_dict (fst (Model_logits m features)) = state_dict m.
Proof.
  destruct m as [b|g]; [|reflexivity]. cbn. f_equal. rewrite map_map. reflexivity.
Qed.

Lemma model_training_set_g g m : model_training (model_set_g g m) = model_training m.
Proof. destruct m; reflexivity. Qed.

Lemma model_training_Model_logits m features :
  model_training (fst (Model_logits m features)) = model_training m.
Proof. destruct m; reflexivity. Qed.

Lemma model_training_load m sd m' :
  load_state_dict m sd = Ok m' -> model_training m' = model_training m.
Proof.
  destruct m as [b|g], sd as [ps|lw lb aw ab]; cbn [load_state_dict]; try discriminate.
  - destruct (load_layers (layers b) ps); cbn [mbind result_bind]; [|discriminate].
    intros [= <-]. reflexivity.
  - destruct (_ && _); [|discriminate]. intros [= <-]. reflexivity.
Qed.

Lemma model_g_set_g g m : model_g (model_set_g g m) = Some g.
Proof. destruct m; reflexivity. Qed.

Lemma same_shape_refl a : same_shape a a = true.
Proof. unfold same_shape. rewrite !Nat.eqb_refl. reflexivity. Qed.

Lemma load_layers_own ls :
  load_layers ls (map (fun l => (conv_weight (conv l), conv_bias (conv l))) ls) = Ok ls.
Proof.
  induction ls as [|[[w b a] g] ls IH]; cbn [map load_layers]; [reflexivity|].
  unfold load_layer. cbn [conv conv_weight conv_bias conv_activation layer_g fst snd].
  rewrite same_shape_refl, Nat.eqb_refl. cbn [andb mbind result_bind]. rewrite IH. reflexivity.
Qed.

(** Loading the snapshot of a model into that model changes nothing. *)
Lemma load_state_dict_own m : load_state_dict m (state_dict m) = Ok m.
Proof.
  destruct m as [[t g ls]|[t g i o sl [lw lb] [aw ab] act]]; cbn [state_dict load_state_dict layers].
  - rewrite load_layers_own. reflexivity.
  - cbn. rewrite !same_shape_refl, !Nat.eqb_refl. reflexivity.
Qed.

(** ** evaluate, in closed form *)

Lemma evaluate_run features subgraph labels loss_fcn (s : State) :
  evaluate features subgraph labels loss_fcn s =
    ({| model := fst (Model_logits (model_set_g subgraph (model_set_training false (model s)))
                                   features);
        optimizer := optimizer s;
        grad_enabled := grad_enabled s;
        model_state_file := model_state_file s;
        trace := trace s ++ [Forward_pass false false (Some subgraph)] |},
     output ← snd (Model_logits (model_set_g subgraph (model_set_training false (model s)))
                                features);
     loss_data ← loss_fcn output labels;
     score ← f1_score_micro labels (np_where_ge output (1 / 2));
     Ok (score, loss_data)).
Proof.
  set (m1 := model_set_g subgraph (model_set_training false (model s))).
  assert (Hg : model_g m1 = Some subgraph) by (unfold m1; destruct (model s); reflexivity).
  assert (Ht : model_training m1 = false) by (unfold m1; destruct (model s); reflexivity).
  unfold evaluate, no_grad, model_logits. repeat msimpl. fold m1. rewrite Hg, Ht.
  destruct (Model_logits m1 features) as [m2 out]. repeat msimpl.
  destruct out as [output|e]; msimpl; [|reflexivity].
  destruct (loss_fcn output labels) as [loss_data|e]; msimpl; [|reflexivity].
  destruct (f1_score_micro labels _) as [score|e]; reflexivity.
Qed.

(** ** Rules for [stable] *)

Lemma stable_bind {A B} (I : State -> Prop) (m : M A) (f : A -> M B) :
  stable I m -> (forall a, stable I (f a)) -> stable I (m ≫= f).
Proof.
  intros Hm Hf s Hs. rewrite M_bind_unfold. specialize (Hm s Hs).
  destruct (m s) as [s1 [a|e]]; cbn [fst] in *; [apply Hf; exact Hm | exact Hm].
Qed.

Lemma stable_ret {A} (I : State -> Prop) (a : A) : stable I (mret a).
Proof. intros s Hs. exact Hs. Qed.

Lemma stable_lift {A} (I : State -> Prop) (r : result A) : stable I (lift r).
Proof. intros s Hs. exact Hs. Qed.

Lemma stable_forM {A B} (I : State -> Prop) (f : A -> M B) (l : list A) :
  (forall a, stable I (f a)) -> stable I (forM f l).
Proof.
  intros Hf. induction l as [|a l IH]; cbn [forM]; [apply stable_ret|].
  apply stable_bind; [apply Hf|]. intros b.
  apply stable_bind; [exact IH|]. intros bs. apply stable_ret.
Qed.

Lemma frozen_refl (s : State) : frozen s s.
Proof. unfold frozen. auto. Qed.

Lemma stable_evaluate_frozen s0 features subgraph labels loss_fcn :
  stable (frozen s0) (evaluate features subgraph labels loss_fcn).
Proof.
  intros s (Hsd & Ho & Hf & Hg). rewrite evaluate_run. cbn [fst]. unfold frozen.
  cbn [model optimizer model_state_file grad_enabled].
  rewrite state_dict_Model_logits, state_dict_set_g, state_dict_set_training. auto.
Qed.

Lemma stable_emit_frozen s0 e : stable (frozen s0) (emit e).
Proof. intros s Hs. exact Hs. Qed.

Lemma stable_test_frozen s0 loss_fcn dl : stable (frozen s0) (test loss_fcn dl).
Proof.
  unfold test.
  apply stable_bind; [apply stable_emit_frozen|]. intros _.
  apply stable_bind.
  { apply stable_forM. intros turn. unfold test_turn.
    apply stable_bind; [apply stable_lift|]. intros [[subgraph features] labels].
    apply stable_bind; [apply stable_evaluate_frozen|]. intros r. apply stable_ret. }
  intros scores. apply stable_bind; [apply stable_emit_frozen|]. intros _. apply stable_ret.
Qed.

(** X9.  [evaluate] changes neither the parameters of the model nor the
    optimizer nor the weight file, and it leaves the gradient mode as it
    found it, also when the forward pass, the loss or the scorer raises. *)
Theorem evaluate_frozen features subgraph labels loss_fcn (s : State) :
  frozen s (fst (evaluate features subgraph labels loss_fcn s)).
Proof. apply stable_evaluate_frozen, frozen_refl. Qed.

(** X10.  [test] changes neither the parameters of the model nor the optimizer
    nor the weight file nor the gradient mode, however many batches it
    evaluates and whether it returns or raises. *)
Theorem test_frozen loss_fcn dl (s : State) :
  frozen s (fst (test loss_fcn dl s)).
Proof. apply stable_test_frozen, frozen_refl. Qed.

Lemma stable_evaluate_file s0 features subgraph labels loss_fcn :
  stable (same_file_and_mode s0) (evaluate features subgraph labels loss_fcn).
Proof. intros s Hs. rewrite evaluate_run. exact Hs. Qed.

Lemma stable_model_logits_file s0 features :
  stable (same_file_and_mode s0) (model_logits features).
Proof.
  intros s Hs. unfold model_logits. repeat msimpl.
  destruct (Model_logits (model s) features) as [m' out]. repeat msimpl. exact Hs.
Qed.

Lemma stable_train_batch_file s0 loss_fcn turn :
  stable (same_file_and_mode s0) (train_batch loss_fcn turn).
Proof.
  destruct turn as [batch data]. unfold train_batch.
  apply stable_bind; [apply stable_lift|]. intros [[subgraph features] labels].
  apply stable_bind; [intros s Hs; exact Hs|]. intros _.
  apply stable_bind; [intros s Hs; exact Hs|]. intros m.
  apply stable_bind; [intros s Hs; exact Hs|]. intros _.
  apply stable_bind; [apply stable_model_logits_file|]. intros logits.
  apply stable_bind; [apply stable_lift|]. intros loss.
  apply stable_bind; [intros s Hs; exact Hs|]. intros m1.
  apply stable_bind; [intros s Hs; exact Hs|]. intros o.
  destruct (optimizer_step o _ (state_dict m1)) as [o' sd'].
  apply stable_bind; [apply stable_lift|]. intros m'.
  apply stable_bind; [intros s Hs; exact Hs|]. intros _.
  apply stable_bind; [intros s Hs; exact Hs|]. intros _. apply stable_ret.
Qed.

Lemma stable_train_file s0 loss_fcn dl tds epochs :
  stable (same_file_and_mode s0) (train loss_fcn dl tds epochs).
Proof.
  unfold train. apply stable_bind; [|intros; apply stable_ret].
  apply stable_forM. intros epoch. unfold train_epoch.
  apply stable_bind; [intros s Hs; exact Hs|]. intros m.
  apply stable_bind; [intros s Hs; exact Hs|]. intros _.
  apply stable_bind; [intros s Hs; exact Hs|]. intros _.
  apply stable_bind; [apply stable_forM; intros; apply stable_train_batch_file|]. intros losses.
  apply stable_bind; [intros s Hs; exact Hs|]. intros _.
  destruct (epoch mod 5 =? 0); [|apply stable_ret].
  unfold periodic_evaluation.
  apply stable_bind.
  { apply stable_forM. intros [[subgraph features] labels]. unfold evaluation_turn.
    apply stable_bind; [apply stable_evaluate_file|]. intros r. apply stable_ret. }
  intros scores s Hs. exact Hs.
Qed.

(** X11.  [train] never writes the weight file, and when it is over, by a
    return or by an exception, the gradient mode is the one it started
    with: the periodic evaluations do not leave it switched off. *)
Theorem train_same_file_and_mode loss_fcn dl tds epochs (s : State) :
  same_file_and_mode s (fst (train loss_fcn dl tds epochs s)).
Proof. apply stable_train_file. split; reflexivity. Qed.

(** ** The events of a run that returns *)

Lemma train_batch_Ok loss_fcn batch data (s s' : State) loss :
  train_batch loss_fcn (batch, data) s = (s', Ok loss) ->
  exists sample, data = Ok sample /\
    trace s' = trace s ++ [Print_batch batch;
                           Forward_pass (grad_enabled s) (model_training (model s))
                                        (Some (sample_graph sample))] /\
    model_training (model s') = model_training (model s) /\
    grad_enabled s' = grad_enabled s.
Proof.
  unfold train_batch. destruct data as [[[subgraph features] labels]|e].
  2:{ repeat msimpl. discriminate. }
  repeat msimpl. unfold model_logits. repeat msimpl.
  rewrite model_g_set_g, model_training_set_g.
  pose proof (model_training_Model_logits (model_set_g subgraph (model s)) features) as Ht.
  rewrite model_training_set_g in Ht.
  destruct (Model_logits (model_set_g subgraph (model s)) features) as [m1 out].
  cbn [fst] in Ht. repeat msimpl.
  destruct out as [logits|e]; repeat msimpl; [|discriminate].
  destruct (loss_fcn logits labels) as [l|e]; repeat msimpl; [|discriminate].
  destruct (optimizer_step _ _ _) as [o' sd'].
  destruct (load_state_dict m1 sd') as [m'|e] eqn:Hload; repeat msimpl; [|discriminate].
  intros [= <- <-]. exists (subgraph, features, labels).
  cbn [set_model set_optimizer add_event trace model grad_enabled sample_graph fst].
  split; [reflexivity|]. split; [rewrite <- app_assoc; reflexivity|].
  split; [|reflexivity]. rewrite (model_training_load _ _ _ Hload). exact Ht.
Qed.


Lemma forM_train_batch_Ok loss_fcn turns : forall (s s' : State) losses,
  forM (train_batch loss_fcn) turns s = (s', Ok losses) ->
  trace s' = trace s ++
    concat (map (fun turn : nat * result Sample =>
                   match snd turn with
                   | Ok data => [Print_batch (fst turn);
                                 Forward_pass (grad_enabled s) (model_training (model s))
                                              (Some (sample_graph data))]
                   | Raise _ => []
                   end) turns) /\
  model_training (model s') = model_training (model s) /\
  grad_enabled s' = grad_enabled s.
Proof.
  induction turns as [|[batch data] turns IH]; intros s s' losses; cbn [forM].
  - intros [= <- <-]. cbn. rewrite app_nil_r. auto.
  - msimpl. destruct (train_batch loss_fcn (batch, data) s) as [s1 [loss|e]] eqn:Hb;
      [|discriminate].
    destruct (train_batch_Ok _ _ _ _ _ _ Hb) as (sample & -> & Htr & Hmt & Hg).
    msimpl. destruct (forM (train_batch loss_fcn) turns s1) as [s2 [ls|e]] eqn:Hrest;
      [|discriminate].
    msimpl. intros [= <- <-].
    destruct (IH _ _ _ Hrest) as (Htr2 & Hmt2 & Hg2).
    rewrite Htr2, Htr, Hmt, Hg, Hmt2, Hg2. cbn [map concat snd fst].
    rewrite <- app_assoc. auto.
Qed.

Lemma evaluation_turn_run loss_fcn subgraph features labels (s : State) :
  evaluation_turn loss_fcn (subgraph, features, labels) s
  = match evaluate features subgraph labels loss_fcn s with
    | (s', Ok r) => (s', Ok (fst r))
    | (s', Raise e) => (s', Raise e)
    end.
Proof. reflexivity. Qed.

Lemma forM_evaluation_turn_Ok loss_fcn samples : forall (s s' : State) scores,
  forM (evaluation_turn loss_fcn) samples s = (s', Ok scores) ->
  trace s' = trace s ++ evaluation_events samples /\
  grad_enabled s' = grad_enabled s.
Proof.
  induction samples as [|[[subgraph features] labels] samples IH]; intros s s' scores;
    cbn [forM].
  - intros [= <- <-]. cbn. rewrite app_nil_r. auto.
  - msimpl. rewrite evaluation_turn_run, evaluate_run.
    destruct (_ ≫= _) as [r|e]; [|discriminate]. repeat msimpl.
    destruct (forM (evaluation_turn loss_fcn) samples _) as [s2 [ls|e]] eqn:Hrest;
      [|discriminate].
    msimpl. intros [= <- <-].
    destruct (IH _ _ _ Hrest) as (Htr & Hg). rewrite Htr, Hg.
    cbn [trace grad_enabled evaluation_events map sample_graph fst].
    rewrite <- app_assoc. auto.
Qed.

Lemma run_log_add_event e (s : State) : run_log (add_event e s) = run_log s ++ [erase e].
Proof. unfold run_log. cbn [add_event trace]. rewrite map_app. reflexivity. Qed.

Lemma erase_evaluation_events samples :
  map erase (evaluation_events samples) = evaluation_events samples.
Proof. unfold evaluation_events. rewrite map_map. reflexivity. Qed.

Lemma erase_batch_events grad (turns : list (nat * result Sample)) :
  map erase
    (concat (map (fun turn : nat * result Sample =>
                    match snd turn with
                    | Ok data => [Print_batch (fst turn);
                                  Forward_pass grad true (Some (sample_graph data))]
                    | Raise _ => []
                    end) turns))
  = concat (map (fun turn : nat * result Sample =>
                    match snd turn with
                    | Ok data => [Print_batch (fst turn);
                                  Forward_pass grad true (Some (sample_graph data))]
                    | Raise _ => []
                    end) turns).
Proof.
  induction turns as [|[batch [data|e]] turns IH]; cbn [map concat snd fst app];
    [reflexivity | rewrite IH; reflexivity | exact IH].
Qed.

Lemma train_epoch_log loss_fcn dl tds epoch (s s' : State) u :
  train_epoch loss_fcn dl tds epoch s = (s', Ok u) ->
  run_log s' = run_log s ++ epoch_events (grad_enabled s) dl tds epoch /\
  grad_enabled s' = grad_enabled s.
Proof.
  unfold train_epoch. repeat msimpl.
  destruct (forM (train_batch loss_fcn) _ _) as [s1 [losses|e]] eqn:Hb; [|discriminate].
  destruct (forM_train_batch_Ok _ _ _ _ _ Hb) as (Htr & _ & Hg).
  cbn [add_event set_model trace model grad_enabled] in Htr, Hg.
  assert (Ht : model_training (model_set_training true (model s)) = true)
    by (destruct (model s); reflexivity).
  rewrite Ht in Htr. repeat msimpl.
  assert (Hlog1 : run_log (add_event (Print_epoch (epoch + 1) (np_mean losses)) s1)
                  = run_log s ++ Print_len_loader (DataLoader_len dl)
                      :: batch_events (grad_enabled s) dl ++ [Print_epoch (epoch + 1) 0]).
  { rewrite run_log_add_event. unfold run_log. rewrite Htr, !map_app, erase_batch_events.
    cbn [map erase]. rewrite <- ?app_assoc. reflexivity. }
  unfold epoch_events. destruct (epoch mod 5 =? 0).
  - unfold periodic_evaluation. repeat msimpl.
    destruct (forM (evaluation_turn loss_fcn) _ _) as [s2 [scores|e]] eqn:He; [|discriminate].
    destruct (forM_evaluation_turn_Ok _ _ _ _ _ He) as (Htr2 & Hg2).
    repeat msimpl. intros [= <- <-]. cbn [add_event grad_enabled] in *.
    split; [|congruence].
    rewrite run_log_add_event. unfold run_log at 1. rewrite Htr2, map_app, erase_evaluation_events.
    fold (run_log (add_event (Print_epoch (epoch + 1) (np_mean losses)) s1)).
    rewrite Hlog1. cbn [erase app]. rewrite <- ?app_assoc. cbn [app].
    rewrite <- ?app_assoc. reflexivity.
  - repeat msimpl. intros [= <- <-]. cbn [add_event grad_enabled] in *.
    split; [|congruence]. rewrite Hlog1. cbn [app]. rewrite <- ?app_assoc. reflexivity.
Qed.

Lemma forM_train_epoch_log loss_fcn dl tds epochs : forall (s s' : State) us,
  forM (train_epoch loss_fcn dl tds) epochs s = (s', Ok us) ->
  run_log s' = run_log s ++ concat (map (epoch_events (grad_enabled s) dl tds) epochs) /\
  grad_enabled s' = grad_enabled s.
Proof.
  induction epochs as [|epoch epochs IH]; intros s s' us; cbn [forM].
  - intros [= <- <-]. cbn. rewrite app_nil_r. auto.
  - msimpl. destruct (train_epoch loss_fcn dl tds epoch s) as [s1 [u|e]] eqn:He;
      [|discriminate].
    destruct (train_epoch_log _ _ _ _ _ _ _ He) as (Hl1 & Hg1).
    msimpl. destruct (forM (train_epoch loss_fcn dl tds) epochs s1) as [s2 [us'|e]] eqn:Hrest;
      [|discriminate].
    msimpl. intros [= <- <-].
    destruct (IH _ _ _ Hrest) as (Hl2 & Hg2). rewrite Hl2, Hl1, Hg1, Hg2.
    cbn [map concat]. rewrite <- app_assoc. auto.
Qed.

(** X12.  When [train] returns, what it printed and ran is exactly, epoch after
    epoch: the length of the loader; for each mini-batch its index and one
    forward pass in training mode on the batched graph; the epoch line; and
    after epochs 0, 5, 10, ... one forward pass per item of the test dataset
    in evaluation mode without gradients, then the score line.  The training
    passes of an epoch that follows an evaluation are in training mode
    again. *)
Theorem train_log loss_fcn dl tds epochs (s : State) :
  snd (train loss_fcn dl tds epochs s) = Ok tt ->
  run_log (fst (train loss_fcn dl tds epochs s))
  = run_log s ++ train_events (grad_enabled s) dl tds epochs.
Proof.
  unfold train. msimpl.
  destruct (forM (train_epoch loss_fcn dl tds) _ s) as [s1 [us|e]] eqn:Hrun; [|discriminate].
  intros _. msimpl. exact (proj1 (forM_train_epoch_log _ _ _ _ _ _ _ Hrun)).
Qed.

Lemma forM_test_turn_Ok loss_fcn turns : forall (s s' : State) scores,
  forM (test_turn loss_fcn) turns s = (s', Ok scores) ->
  exists samples,
    map snd turns = map Ok samples /\
    trace s' = trace s ++ evaluation_events samples.
Proof.
  induction turns as [|[batch data] turns IH]; intros s s' scores; cbn [forM].
  - intros [= <- <-]. exists []. cbn. rewrite app_nil_r. auto.
  - msimpl. destruct data as [[[subgraph features] labels]|e]; [|discriminate].
    change (test_turn loss_fcn (batch, Ok (subgraph, features, labels)))
      with (evaluation_turn loss_fcn (subgraph, features, labels)).
    rewrite evaluation_turn_run, evaluate_run.
    destruct (_ ≫= _) as [r|e]; [|discriminate]. repeat msimpl.
    destruct (forM (test_turn loss_fcn) turns _) as [s2 [ls|e]] eqn:Hrest;
      [|discriminate].
    msimpl. intros [= <- <-].
    destruct (IH _ _ _ Hrest) as (samples & Hs & Htr).
    exists ((subgraph, features, labels) :: samples). cbn [map snd]. rewrite Hs.
    split; [reflexivity|]. rewrite Htr.
    cbn [trace evaluation_events map sample_graph fst].
    rewrite <- app_assoc. reflexivity.
Qed.

Lemma map_snd_enumerate {A} (l : list A) : map snd (enumerate l) = l.
Proof.
  unfold enumerate. generalize 0.
  induction l as [|a l IH]; intros n; cbn; [reflexivity | rewrite IH; reflexivity].
Qed.

(** X13.  When [test] returns a score, every batch of the loader collated and
    was evaluated once, in order, in evaluation mode and without gradients;
    the run printed the heading first and the returned score last, and
    nothing else. *)
Theorem test_log loss_fcn dl (s : State) :
  returns (snd (test loss_fcn dl s)) = true ->
  exists samples score,
    DataLoader_iter dl = map Ok samples /\
    snd (test loss_fcn dl s) = Ok score /\
    trace (fst (test loss_fcn dl s))
    = trace s ++ Print_testing :: evaluation_events samples ++ [Print_F1_test score].
Proof.
  unfold test. repeat msimpl.
  destruct (forM (test_turn loss_fcn) _ _) as [s1 [scores|e]] eqn:Hrun;
    repeat msimpl; [|discriminate].
  intros _. destruct (forM_test_turn_Ok _ _ _ _ _ Hrun) as (samples & Hs & Htr).
  rewrite map_snd_enumerate in Hs.
  exists samples, (np_mean scores). split; [exact Hs|]. split; [reflexivity|].
  cbn [add_event trace] in *. rewrite Htr. cbn [add_event trace].
  rewrite <- ?app_assoc. reflexivity.
Qed.

(** ** The block that closes [main] *)

Lemma train_and_test_after_train args loss_fcn dl1 dl2 tds (s0 : State) :
  args_mode args = "train"%string ->
  snd (train loss_fcn dl1 tds (args_epochs args) s0) = Ok tt ->
  let st := fst (train loss_fcn dl1 tds (args_epochs args) s0) in
  let sd := state_dict (model st) in
  train_and_test args loss_fcn dl1 dl2 tds s0
  = test loss_fcn dl2
      (add_event (Torch_load (Some sd))
         (add_event (Torch_save sd) (set_model_state_file sd st))).
Proof.
  intros Hmode Hret. unfold train_and_test. rewrite Hmode.
  change (String.eqb "train" "train") with true. cbv iota. repeat msimpl.
  destruct (train loss_fcn dl1 tds (args_epochs args) s0) as [st [[]|e]]; [|discriminate].
  cbn [fst]. repeat msimpl. rewrite load_state_dict_own. repeat msimpl.
  f_equal.
Qed.

(** X14.  In train mode, when [train] returns, the save and the reload that
    follow change nothing in the model: [test] runs on the very model that
    training left, and the weight file holds its parameters. *)
Theorem train_mode_tests_trained_model args loss_fcn dl1 dl2 tds (s0 : State) :
  args_mode args = "train"%string ->
  snd (train loss_fcn dl1 tds (args_epochs args) s0) = Ok tt ->
  let st := fst (train loss_fcn dl1 tds (args_epochs args) s0) in
  let sd := state_dict (model st) in
  train_and_test args loss_fcn dl1 dl2 tds s0
  = test loss_fcn dl2
      (add_event (Torch_load (Some sd))
         (add_event (Torch_save sd) (set_model_state_file sd st))).
Proof. exact (train_and_test_after_train args loss_fcn dl1 dl2 tds s0). Qed.


Lemma main_run (args : Args) (s : State) :
  (0 < args_batch_size args)%Z ->
  let m := construct_model args PPI_train (ncols (features PPI_train))
                           (ncols (labels PPI_train)) in
  main args s
  = train_and_test args BCEWithLogitsLoss
      {| dataset := PPI_train; loader_batch_size := Z.to_nat (args_batch_size args) |}
      {| dataset := PPI_test; loader_batch_size := Z.to_nat (args_batch_size args) |}
      PPI_test
      (set_optimizer (Adam (state_dict m)) (set_model m s)).
Proof.
  intros Hpos. unfold main, DataLoader_init.
  destruct (decide (args_batch_size args <= 0)%Z) as [Hle|_]; [lia|].
  repeat msimpl. reflexivity.
Qed.

(** X15.  A run of [main] that returns leaves in the weight file exactly the
    parameters of the model it has just tested, in train mode and in test
    mode alike, and the file is there. *)
Theorem main_file_holds_tested_model (args : Args) (s : State) :
  returns (snd (main args s)) = true ->
  model_state_file (fst (main args s))
  = Some (state_dict (model (fst (main args s)))).
Proof.
  intros Hret.
  destruct (decide (args_batch_size args <= 0)%Z) as [Hle|Hpos].
  { rewrite main_batch_size_not_positive in Hret by exact Hle. discriminate. }
  rewrite main_run in * by lia. cbv zeta in *.
  match goal with |- context [train_and_test _ _ ?dl1 ?dl2 _ ?s0] =>
    destruct (train_and_test_reloads args BCEWithLogitsLoss dl1 dl2 PPI_test s0)
      as [(e & pre & Hr & _)|(s1 & sd & m' & pre & _ & _ & Hfile & _ & Hsd & Hrun & _)]
  end.
  { rewrite Hr in Hret. discriminate. }
  rewrite Hrun.
  destruct (stable_test_frozen (set_model m' s1) BCEWithLogitsLoss
              {| dataset := PPI_test; loader_batch_size := Z.to_nat (args_batch_size args) |}
              (set_model m' s1) (frozen_refl _)) as (Hd & _ & Hf & _).
  rewrite Hf, Hd. cbn [set_model model model_state_file]. rewrite Hfile, Hsd. reflexivity.
Qed.

Lemma load_state_dict_kind m sd m' :
  load_state_dict m sd = Ok m' ->
  is_BGM m = match sd with BGM_state _ => true | GAT_state _ _ _ _ => false end.
Proof. destruct m, sd; cbn [load_state_dict is_BGM]; try discriminate; reflexivity. Qed.

Lemma is_BGM_construct_model args tds n_features n_classes :
  is_BGM (construct_model args tds n_features n_classes)
  = String.eqb (args_model args) "BGM".
Proof. unfold construct_model. destruct (String.eqb _ _); reflexivity. Qed.

(** X16.  In test mode, a weight file written for the other kind of model is
    refused: [main] raises RuntimeError right after reading the file, and
    no evaluation runs. *)
Theorem test_mode_file_of_other_model (args : Args) (s : State) (sd : StateDict) :
  args_mode args <> "train"%string ->
  (0 < args_batch_size args)%Z ->
  model_state_file s = Some sd ->
  String.eqb (args_model args) "BGM"
    <> match sd with BGM_state _ => true | GAT_state _ _ _ _ => false end ->
  snd (main args s) = Raise RuntimeError /\
  trace (fst (main args s)) = trace s ++ [Torch_load (Some sd)].
Proof.
  intros Hmode Hpos Hfile Hkind. rewrite main_run by exact Hpos. cbv zeta.
  unfold train_and_test. destruct (String.eqb_spec (args_mode args) "train") as [|_];
    [contradiction|].
  repeat msimpl. rewrite Hfile. repeat msimpl.
  destruct (load_state_dict _ sd) as [m'|e] eqn:Hload.
  - apply load_state_dict_kind in Hload. rewrite is_BGM_construct_model in Hload.
    contradiction.
  - repeat msimpl. split; [|reflexivity]. f_equal.
    revert Hload. unfold construct_model.
    destruct (String.eqb (args_model args) "BGM") eqn:Hm; destruct sd;
      cbn [load_state_dict]; try congruence; try (exfalso; apply Hkind; reflexivity).
Qed.


Lemma train_no_epochs loss_fcn dl tds epochs (s : State) :
  (epochs <= 0)%Z -> train loss_fcn dl tds epochs s = (s, Ok tt).
Proof.
  intros Hle. unfold train. replace (Z.to_nat epochs) with 0 by lia. reflexivity.
Qed.

(** X17.  With [--mode train] and a number of epochs that is not positive,
    [main] trains nothing and prints nothing before the save: it writes the
    parameters the model was constructed with over the weight file, reads
    them back and tests that model. *)
Theorem main_without_epochs (args : Args) (s : State) :
  args_mode args = "train"%string ->
  (args_epochs args <= 0)%Z ->
  (0 < args_batch_size args)%Z ->
  let m := construct_model args PPI_train (ncols (features PPI_train))
                           (ncols (labels PPI_train)) in
  main args s
  = test BCEWithLogitsLoss
      {| dataset := PPI_test; loader_batch_size := Z.to_nat (args_batch_size args) |}
      {| model := m;
         optimizer := Adam (state_dict m);
         grad_enabled := grad_enabled s;
         model_state_file := Some (state_dict m);
         trace := trace s ++ [Torch_save (state_dict m); Torch_load (Some (state_dict m))] |}.
Proof.
  intros Hmode Hep Hpos m. rewrite main_run by exact Hpos. cbv zeta. fold m.
  rewrite train_and_test_after_train;
    [|exact Hmode | rewrite train_no_epochs by exact Hep; reflexivity].
  cbv zeta. rewrite train_no_epochs by exact Hep.
  cbn [fst]. f_equal. unfold add_event, set_model_state_file, set_optimizer, set_model.
  cbn [model optimizer grad_enabled model_state_file trace].
  rewrite <- app_assoc. reflexivity.
Qed.

(** ** A loader of batch size one *)

Lemma forM_test_turn_singletons loss_fcn samples : forall n (s : State),
  forM (test_turn loss_fcn) (combine (seq n (length samples)) (map Ok samples)) s
  = forM (evaluation_turn loss_fcn) samples s.
Proof.
  induction samples as [|[[subgraph features] labels] samples IH]; intros n s;
    [reflexivity|].
  cbn [length seq map combine forM]. rewrite !M_bind_unfold.
  change (test_turn loss_fcn (n, Ok (subgraph, features, labels)))
    with (evaluation_turn loss_fcn (subgraph, features, labels)).
  destruct (evaluation_turn loss_fcn (subgraph, features, labels) s) as [s1 [r|e]];
    [|reflexivity].
  rewrite !M_bind_unfold, IH. reflexivity.
Qed.

(** X18.  With a batch size of one, [test] evaluates the items of the dataset
    one by one, exactly as the evaluation inside [train] does: collating a
    single item changes neither its graph nor its features nor its labels. *)
Theorem test_batch_size_one loss_fcn (ds : LegacyPPIDataset) (s : State) :
  test loss_fcn {| dataset := ds; loader_batch_size := 1 |} s
  = (emit Print_testing;;
     scores ← forM (evaluation_turn loss_fcn) (items ds);
     emit (Print_F1_test (np_mean scores));;
     mret (np_mean scores)) s.
Proof.
  unfold test. repeat msimpl. rewrite DataLoader_iter_one. unfold enumerate.
  rewrite length_map, forM_test_turn_singletons. reflexivity.
Qed.


(** ** Evaluation does not steer training *)

Lemma detach_set_g g m : detach (model_set_g g m) = detach m.
Proof. destruct m; reflexivity. Qed.

Lemma detach_set_training b m : detach (model_set_training b m) = detach m.
Proof. destruct m; reflexivity. Qed.

Lemma detach_Model_logits m features : detach (fst (Model_logits m features)) = detach m.
Proof.
  destruct m as [b|g]; [|reflexivity]. cbn. do 2 f_equal. rewrite map_map. reflexivity.
Qed.

Lemma state_dict_detach m : state_dict (detach m) = state_dict m.
Proof.
  destruct m as [b|g]; [|reflexivity]. cbn. f_equal. rewrite map_map. reflexivity.
Qed.

Lemma Model_logits_detached g m_a m_b features :
  detach m_a = detach m_b ->
  model_training m_a = model_training m_b ->
  Model_logits (model_set_g g m_a) features = Model_logits (model_set_g g m_b) features.
Proof.
  destruct m_a as [a|a], m_b as [b|b]; cbn [detach model_training]; try discriminate.
  - intros [= Hl] Ht. cbn [model_set_g Model_logits]. unfold BasicGraphModel_logits.
    cbn [bgm_training bgm_g layers]. rewrite Ht.
    apply (f_equal (map (fun l => {| conv := conv l; layer_g := Some g |}))) in Hl.
    rewrite !map_map in Hl. cbn [conv] in Hl. rewrite Hl. reflexivity.
  - destruct a, b. cbn. intros [= -> -> -> -> -> ->] ->. reflexivity.
Qed.

Lemma train_batch_sim loss_fcn turn (s_a s_b : State) :
  same_learner s_a s_b ->
  model_training (model s_a) = model_training (model s_b) ->
  snd (train_batch loss_fcn turn s_a) = snd (train_batch loss_fcn turn s_b) /\
  same_learner (fst (train_batch loss_fcn turn s_a)) (fst (train_batch loss_fcn turn s_b)) /\
  model_training (model (fst (train_batch loss_fcn turn s_a)))
  = model_training (model (fst (train_batch loss_fcn turn s_b))).
Proof.
  intros [Hd Ho] Ht. destruct turn as [batch [[[subgraph features] labels]|e]];
    unfold train_batch.
  2:{ repeat msimpl. split; [reflexivity|]. split; [split|]; assumption. }
  repeat msimpl. unfold model_logits. repeat msimpl.
  rewrite (Model_logits_detached subgraph _ _ features Hd Ht).
  destruct (Model_logits (model_set_g subgraph (model s_b)) features) as [m1 out].
  repeat msimpl. unfold same_learner.
  destruct out as [logits|e]; repeat msimpl; [|auto].
  destruct (loss_fcn logits labels) as [l|e]; repeat msimpl; [|auto].
  rewrite Ho. destruct (optimizer_step _ _ _) as [o' sd'].
  destruct (load_state_dict m1 sd') as [m'|e]; repeat msimpl; auto.
Qed.

Lemma forM_train_batch_sim loss_fcn turns : forall (s_a s_b : State),
  same_learner s_a s_b ->
  model_training (model s_a) = model_training (model s_b) ->
  snd (forM (train_batch loss_fcn) turns s_a) = snd (forM (train_batch loss_fcn) turns s_b) /\
  same_learner (fst (forM (train_batch loss_fcn) turns s_a))
               (fst (forM (train_batch loss_fcn) turns s_b)).
Proof.
  induction turns as [|turn turns IH]; intros s_a s_b Hs Ht; cbn [forM].
  - split; [reflexivity | exact Hs].
  - destruct (train_batch_sim loss_fcn turn s_a s_b Hs Ht) as (Hr & Hs1 & Ht1).
    rewrite !M_bind_unfold.
    destruct (train_batch loss_fcn turn s_a) as [a1 ra], (train_batch loss_fcn turn s_b) as [b1 rb].
    cbn [fst snd] in *. subst rb. destruct ra as [loss|e]; [|split; [reflexivity | exact Hs1]].
    destruct (IH a1 b1 Hs1 Ht1) as (Hr2 & Hs2). rewrite !M_bind_unfold.
    destruct (forM (train_batch loss_fcn) turns a1) as [a2 ra],
             (forM (train_batch loss_fcn) turns b1) as [b2 rb].
    cbn [fst snd] in *. subst rb. destruct ra as [ls|e]; split; solve [reflexivity | exact Hs2].
Qed.

Lemma stable_evaluate_learner s0 features subgraph labels loss_fcn :
  stable (same_learner s0) (evaluate features subgraph labels loss_fcn).
Proof.
  intros s [Hd Ho]. rewrite evaluate_run. cbn [fst]. split; cbn [model optimizer]; [|exact Ho].
  rewrite detach_Model_logits, detach_set_g, detach_set_training. exact Hd.
Qed.

Lemma stable_periodic_evaluation_learner s0 loss_fcn tds :
  stable (same_learner s0) (periodic_evaluation loss_fcn tds).
Proof.
  unfold periodic_evaluation. apply stable_bind.
  - apply stable_forM. intros [[subgraph features] labels]. unfold evaluation_turn.
    apply stable_bind; [apply stable_evaluate_learner | intros r; apply stable_ret].
  - intros scores s Hs. exact Hs.
Qed.

Lemma train_epoch_sim loss_fcn dl tds_a tds_b epoch (s_a s_b : State) :
  same_learner s_a s_b ->
  same_learner (fst (train_epoch loss_fcn dl tds_a epoch s_a))
               (fst (train_epoch loss_fcn dl tds_b epoch s_b)).
Proof.
  intros [Hd Ho]. unfold train_epoch. repeat msimpl.
  match goal with |- context [forM _ _ ?a] =>
    match goal with |- context [forM (train_batch loss_fcn) ?turns ?b] =>
      lazymatch b with a => fail | _ =>
        destruct (forM_train_batch_sim loss_fcn turns a b) as (Hr & Hs1)
      end
    end
  end.
  { split; cbn [model optimizer add_event set_model]; [|exact Ho].
    rewrite !detach_set_training. exact Hd. }
  { cbn [model add_event set_model]. destruct (model s_a), (model s_b); reflexivity. }
  match type of Hr with snd ?x = snd ?y => destruct x as [a1 ra], y as [b1 rb] end.
  cbn [fst snd] in *. subst rb. destruct ra as [losses|e]; [|exact Hs1].
  repeat msimpl. destruct (epoch mod 5 =? 0).
  - pose proof (stable_periodic_evaluation_learner
                  (add_event (Print_epoch (epoch + 1) (np_mean losses)) b1) loss_fcn tds_a
                  (add_event (Print_epoch (epoch + 1) (np_mean losses)) a1)) as Ha.
    pose proof (stable_periodic_evaluation_learner
                  (add_event (Print_epoch (epoch + 1) (np_mean losses)) b1) loss_fcn tds_b
                  (add_event (Print_epoch (epoch + 1) (np_mean losses)) b1)) as Hb.
    destruct Ha as [Ha1 Ha2].
    { destruct Hs1 as [H1 H2]. split; cbn [add_event model optimizer]; congruence. }
    destruct Hb as [Hb1 Hb2]; [split; reflexivity|].
    split; congruence.
  - exact Hs1.
Qed.

Lemma forM_train_epoch_sim loss_fcn dl tds_a tds_b epochs :
  forall (s_a s_b s_a' s_b' : State) us_a us_b,
  same_learner s_a s_b ->
  forM (train_epoch loss_fcn dl tds_a) epochs s_a = (s_a', Ok us_a) ->
  forM (train_epoch loss_fcn dl tds_b) epochs s_b = (s_b', Ok us_b) ->
  same_learner s_a' s_b'.
Proof.
  induction epochs as [|epoch epochs IH]; intros s_a s_b s_a' s_b' us_a us_b Hs; cbn [forM].
  - intros [= <- _] [= <- _]. exact Hs.
  - rewrite !M_bind_unfold.
    pose proof (train_epoch_sim loss_fcn dl tds_a tds_b epoch s_a s_b Hs) as Hs1.
    destruct (train_epoch loss_fcn dl tds_a epoch s_a) as [a1 [u|e]]; [|discriminate].
    destruct (train_epoch loss_fcn dl tds_b epoch s_b) as [b1 [v|e]]; [|intros _; discriminate].
    cbn [fst] in Hs1. rewrite !M_bind_unfold.
    destruct (forM (train_epoch loss_fcn dl tds_a) epochs a1) as [a2 [us|e]] eqn:Ha;
      [|discriminate].
    destruct (forM (train_epoch loss_fcn dl tds_b) epochs b1) as [b2 [vs|e]] eqn:Hb;
      [|intros _; discriminate].
    intros [= <- _] [= <- _]. exact (IH _ _ _ _ _ _ Hs1 Ha Hb).
Qed.

(** X19.  The evaluations inside [train] do not steer the training: two runs
    of [train] from the same state that differ only in the test dataset, and
    that both return, end with the same parameters and the same optimizer.
    In particular the parameters are those of a training without any
    evaluation. *)
Theorem evaluation_does_not_steer_training loss_fcn dl tds_a tds_b epochs (s : State) :
  snd (train loss_fcn dl tds_a epochs s) = Ok tt ->
  snd (train loss_fcn dl tds_b epochs s) = Ok tt ->
  state_dict (model (fst (train loss_fcn dl tds_a epochs s)))
  = state_dict (model (fst (train loss_fcn dl tds_b epochs s))) /\
  optimizer (fst (train loss_fcn dl tds_a epochs s))
  = optimizer (fst (train loss_fcn dl tds_b epochs s)).
Proof.
  unfold train. rewrite !M_bind_unfold.
  destruct (forM (train_epoch loss_fcn dl tds_a) _ s) as [s_a [us_a|e]] eqn:Ha; [|discriminate].
  destruct (forM (train_epoch loss_fcn dl tds_b) _ s) as [s_b [us_b|e]] eqn:Hb;
    [|intros _; discriminate].
  intros _ _. cbn [fst mret M_ret].
  destruct (forM_train_epoch_sim _ _ _ _ _ _ _ _ _ _ _ (conj eq_refl eq_refl) Ha Hb) as [Hd Ho].
  split; [|exact Ho]. rewrite <- (state_dict_detach (model s_a)), Hd. apply state_dict_detach.
Qed.

(** ** A training that fails *)

(** X20.  In train mode, when [train] raises, [main]'s closing block raises
    the same exception at once: nothing is saved, loaded or tested, and the
    weight file is the one from before the run. *)
Theorem failed_training_keeps_file args loss_fcn dl1 dl2 tds (s0 : State) e :
  args_mode args = "train"%string ->
  snd (train loss_fcn dl1 tds (args_epochs args) s0) = Raise e ->
  train_and_test args loss_fcn dl1 dl2 tds s0
  = (fst (train loss_fcn dl1 tds (args_epochs args) s0), Raise e) /\
  model_state_file (fst (train_and_test args loss_fcn dl1 dl2 tds s0))
  = model_state_file s0.
Proof.
  intros Hmode Hraise. unfold train_and_test. rewrite Hmode.
  change (String.eqb "train" "train") with true. cbv iota. repeat msimpl.
  pose proof (stable_train_file s0 loss_fcn dl1 tds (args_epochs args) s0
                (conj eq_refl eq_refl)) as [Hfile _].
  destruct (train loss_fcn dl1 tds (args_epochs args) s0) as [st [[]|e']];
    cbn [fst snd] in *; [discriminate|].
  injection Hraise as ->. split; [reflexivity | exact Hfile].
Qed.

(** ** Test mode *)

Lemma adds_bind {A B} (P : Event -> Prop) (m : M A) (f : A -> M B) :
  adds P m -> (forall a, adds P (f a)) -> adds P (m ≫= f).
Proof.
  intros Hm Hf s. rewrite M_bind_unfold. destruct (Hm s) as (evs1 & H1 & HP1).
  destruct (m s) as [s1 [a|e]]; cbn [fst] in *; [|eauto].
  destruct (Hf a s1) as (evs2 & H2 & HP2). exists (evs1 ++ evs2).
  rewrite H2, H1, app_assoc. split; [reflexivity | apply Forall_app; auto].
Qed.

Lemma adds_ret {A} (P : Event -> Prop) (a : A) : adds P (mret a).
Proof. intros s. exists []. cbn. rewrite app_nil_r. auto. Qed.

Lemma adds_lift {A} (P : Event -> Prop) (r : result A) : adds P (lift r).
Proof. intros s. exists []. cbn. rewrite app_nil_r. auto. Qed.

Lemma adds_emit (P : Event -> Prop) e : P e -> adds P (emit e).
Proof. intros He s. exists [e]. cbn. auto. Qed.

Lemma adds_forM {A B} (P : Event -> Prop) (f : A -> M B) (l : list A) :
  (forall a, adds P (f a)) -> adds P (forM f l).
Proof.
  intros Hf. induction l as [|a l IH]; cbn [forM]; [apply adds_ret|].
  apply adds_bind; [apply Hf|]. intros b.
  apply adds_bind; [exact IH|]. intros bs. apply adds_ret.
Qed.

Lemma adds_evaluate features subgraph labels loss_fcn :
  adds evaluation_only (evaluate features subgraph labels loss_fcn).
Proof.
  intros s. rewrite evaluate_run. cbn [fst trace]. eexists. split; [reflexivity|].
  repeat constructor.
Qed.

Lemma adds_test loss_fcn dl : adds evaluation_only (test loss_fcn dl).
Proof.
  unfold test. apply adds_bind; [apply adds_emit; exact I|]. intros _.
  apply adds_bind.
  { apply adds_forM. intros turn. unfold test_turn.
    apply adds_bind; [apply adds_lift|]. intros [[subgraph features] labels].
    apply adds_bind; [apply adds_evaluate|]. intros r. apply adds_ret. }
  intros scores. apply adds_bind; [apply adds_emit; exact I|]. intros _. apply adds_ret.
Qed.

(** X21.  Outside train mode [main] never trains and never writes: whatever
    happens, the weight file is left as it was, and all the run adds to the
    trace are the read of the file, the two lines of [test] and forward
    passes in evaluation mode without gradients. *)
Theorem test_mode_never_trains (args : Args) (s : State) :
  args_mode args <> "train"%string ->
  model_state_file (fst (main args s)) = model_state_file s /\
  exists evs, trace (fst (main args s)) = trace s ++ evs /\ Forall evaluation_only evs.
Proof.
  intros Hmode.
  destruct (decide (args_batch_size args <= 0)%Z) as [Hle|Hpos].
  { rewrite main_batch_size_not_positive by exact Hle. cbn [fst].
    split; [reflexivity|]. exists []. rewrite app_nil_r. auto. }
  rewrite main_run by lia. cbv zeta. unfold train_and_test.
  destruct (String.eqb_spec (args_mode args) "train") as [|_]; [contradiction|].
  repeat msimpl. destruct (model_state_file s) as [sd|] eqn:Hfile; repeat msimpl.
  2:{ split; [exact Hfile|]. eexists. split; [reflexivity | repeat constructor]. }
  destruct (load_state_dict _ sd) as [m'|e]; repeat msimpl.
  2:{ split; [exact Hfile|]. eexists. split; [reflexivity | repeat constructor]. }
  match goal with |- context [test ?loss ?dl ?s1] =>
    destruct (stable_test_frozen s1 loss dl s1 (frozen_refl _)) as (_ & _ & Hf & _);
    destruct (adds_test loss dl s1) as (evs & Ht & HP)
  end.
  split; [rewrite Hf; exact Hfile|].
  exists (Torch_load (Some sd) :: evs). rewrite Ht.
  unfold set_model, add_event, set_optimizer. cbn [trace].
  rewrite <- app_assoc. split; [reflexivity|]. constructor; [exact I | exact HP].
Qed.

End run_facts.

(** * The theorems at small inputs *)

Lemma example_gat_wf g : GraphAttentionNetwork_wf (example_gat g).
Proof.
  unfold GraphAttentionNetwork_wf, Linear_wf, Matrix_wf; cbn.
  repeat split; repeat constructor.
Defined.

Lemma example_graph_wf : DGLGraph_wf example_graph.
Proof. unfold DGLGraph_wf; cbn. repeat constructor. Defined.

Lemma GraphAttentionNetwork_forward_spec_witness :
  GraphAttentionNetwork_forward (example_gat (Some example_graph)) example_features
  = Ok (spec_forward (example_gat (Some example_graph)) example_graph example_features).
Proof.
  apply (GraphAttentionNetwork_forward_spec
           (example_gat (Some example_graph)) example_graph example_features
           (example_gat_wf _) eq_refl example_graph_wf eq_refl eq_refl).
Defined.

Lemma no_edges_uniform_attention_witness :
  GraphAttentionNetwork_forward (example_gat (Some example_isolated)) example_features =
  (Wh ← Linear_call (linear (example_gat (Some example_isolated))) example_features;
   out ← mm (uniform_attention 3) Wh;
   Ok out).
Proof.
  apply (no_edges_uniform_attention
           (example_gat (Some example_isolated)) example_isolated example_features
           eq_refl eq_refl).
Defined.

Lemma collate_fn_rows_witness :
  exists graph features labels,
    collate_fn (items example_dataset) = Ok (graph, features, labels) /\
    number_of_nodes graph = 6 /\ nrows features = 6 /\ nrows labels = 6 /\
    rows features !! 4 = Some [0; 1]%R.
Proof.
  assert (Hwf : Forall sample_wf (items example_dataset))
    by (repeat constructor).
  assert (Hw : Forall (fun s => ncols (sample_features s) = 2 /\ ncols (sample_labels s) = 2)
                      (items example_dataset))
    by (repeat constructor).
  destruct (collate_fn_rows (items example_dataset) 2 2 ltac:(discriminate) Hwf Hw)
    as (graph & features & labels & Hc & Hn & Hf & Hl & Hrows).
  exists graph, features, labels.
  split; [exact Hc|]. split; [exact Hn|]. split; [exact Hf|]. split; [exact Hl|].
  exact (proj1 (Hrows 1 (example_isolated, example_features, example_labels) 1
                      eq_refl ltac:(repeat constructor))).
Defined.

Lemma main_model_selection_witness :
  is_BGM (model (fst (main (L := example_libraries) (example_args "train" "GAT")
                           (example_state None)))) = false.
Proof.
  apply (main_model_selection (L := example_libraries) (example_args "train" "GAT")
           (example_state None)).
  reflexivity.
Defined.

Lemma test_mode_without_file_witness :
  snd (main (L := example_libraries) (example_args "test" "GAT") (example_state None))
  = Raise FileNotFoundError.
Proof.
  rewrite (test_mode_without_file (L := example_libraries) (example_args "test" "GAT")
             (example_state None) eq_refl eq_refl eq_refl).
  reflexivity.
Defined.

Lemma edge_loop_symmetric_witness :
  exists coeffs,
    edge_loop (example_gat None) example_features
              (with_edges example_graph [(1, 0); (0, 1); (1, 2)]) = Ok coeffs /\
    entry coeffs 0 1 = entry coeffs 1 0 /\ entry coeffs 1 2 = entry coeffs 2 1.
Proof.
  destruct (edge_loop_symmetric (example_gat None) example_features example_graph
              [(1, 0); (0, 1); (1, 2)] (perm_swap _ _ _)) as [Hsym Htotal].
  destruct (Htotal (example_gat_wf _) example_graph_wf ltac:(repeat constructor)
                   eq_refl eq_refl) as [coeffs Hc].
  exists coeffs. split; [exact Hc|]. split; apply (Hsym coeffs Hc).
Defined.

(** The events of a training run of six epochs on the small dataset, then
    the save, the load and the final evaluation. *)
Example main_train_events :
  map (event_kind (L := example_libraries))
      (trace (fst (main (L := example_libraries) (example_args "train" "GAT")
                        (example_state None))))
  = ["len loader"; "batch"; "forward"; "Epoch";
     "forward (no_grad)"; "forward (no_grad)"; "F1-Score (train)";
     "len loader"; "batch"; "forward"; "Epoch";
     "len loader"; "batch"; "forward"; "Epoch";
     "len loader"; "batch"; "forward"; "Epoch";
     "len loader"; "batch"; "forward"; "Epoch";
     "len loader"; "batch"; "forward"; "Epoch";
     "forward (no_grad)"; "forward (no_grad)"; "F1-Score (train)";
     "save"; "load"; "-- Testing"; "forward (no_grad)"; "F1-Score (test)"]%string.
Proof. reflexivity. Qed.

Example main_train_returns :
  returns (snd (main (L := example_libraries) (example_args "train" "BGM")
                     (example_state None))) = true.
Proof. reflexivity. Qed.

(** When the edge list holds both (0, 1) and (1, 0), the two mirrored
    entries end with the score of the edge that comes later. *)
Example later_edge_overwrites :
  spec_score example_directed example_features 0 1 = 1%R /\
  spec_score example_directed example_features 1 0 = 0%R /\
  spec_coeffs example_directed example_graph example_features 0 1 = 0%R /\
  spec_coeffs example_directed example_graph example_features 1 0 = 0%R.
Proof.
  assert (H01 : spec_score example_directed example_features 0 1 = 1%R).
  { unfold spec_score, spec_Wh, dot, Rsum, row, torch_cat. cbn. lra. }
  assert (H10 : spec_score example_directed example_features 1 0 = 0%R).
  { unfold spec_score, spec_Wh, dot, Rsum, row, torch_cat. cbn. lra. }
  split; [exact H01|]. split; [exact H10|].
  destruct (spec_coeffs_last example_directed example_graph example_features
              [(0, 1)] 1 0 [(1, 2)] eq_refl) as [Ha Hb].
  { repeat constructor; unfold joins; intros [[=]|[=]]. }
  rewrite Ha, Hb. split; exact H10.
Qed.

Lemma train_log_witness :
  run_log (fst (train (L := example_libraries) example_BCEWithLogitsLoss example_loader
                  example_dataset 6 (example_state None)))
  = run_log (example_state None)
    ++ train_events true example_loader example_dataset 6.
Proof.
  apply (train_log (L := example_libraries) example_BCEWithLogitsLoss example_loader
           example_dataset 6 (example_state None)).
  reflexivity.
Defined.

Lemma test_log_witness :
  exists samples score,
    DataLoader_iter example_loader = map Ok samples /\
    snd (test (L := example_libraries) example_BCEWithLogitsLoss example_loader
              (example_state None)) = Ok score /\
    trace (fst (test (L := example_libraries) example_BCEWithLogitsLoss example_loader
                     (example_state None)))
    = Print_testing :: evaluation_events samples ++ [Print_F1_test score].
Proof.
  apply (test_log (L := example_libraries) example_BCEWithLogitsLoss example_loader
           (example_state None)).
  reflexivity.
Defined.

Lemma GraphAttentionNetwork_forward_returns_only_if_witness :
  exists g, gat_g (example_gat (Some example_graph)) = Some g /\
    ncols example_features = in_features (linear (example_gat (Some example_graph))) /\
    nrows example_features = number_of_nodes g /\
    DGLGraph_wf g.
Proof.
  apply (GraphAttentionNetwork_forward_returns_only_if
           (example_gat (Some example_graph)) example_features).
  reflexivity.
Defined.


Lemma isolated_node_attention_witness :
  exists coeffs,
    edge_loop (example_gat None) example_features example_pair = Ok coeffs /\
    entry coeffs 2 0 = 0%R /\
    entry (F_softmax_dim1 (F_leaky_relu coeffs (2 / 10))) 2 0 = (1 / INR 3)%R.
Proof.
  destruct (edge_loop (example_gat None) example_features example_pair) as [coeffs|e] eqn:Hc.
  - exists coeffs. split; [reflexivity|].
    apply (isolated_node_attention (example_gat None) example_features example_pair
             coeffs 2 Hc).
    + cbn. lia.
    + repeat constructor; cbn; lia.
    + cbn. lia.
  - exfalso.
    assert (Hr : returns (edge_loop (example_gat None) example_features example_pair) = true)
      by reflexivity.
    rewrite Hc in Hr. discriminate.
Defined.

Lemma collate_fn_block_diagonal_witness :
  DGLGraph_wf {| number_of_nodes := 6; all_edges := [(0, 1); (1, 0); (1, 2)] |} /\
  Forall (fun e => exists i, in_block [example_graph; example_isolated] i e)
         [(0, 1); (1, 0); (1, 2)].
Proof.
  apply (collate_fn_block_diagonal (items example_dataset)
           {| number_of_nodes := 6; all_edges := [(0, 1); (1, 0); (1, 2)] |}
           {| ncols := 2; rows := rows example_features ++ rows example_features |}
           {| ncols := 2; rows := rows example_labels ++ rows example_labels |}).
  - repeat constructor.
  - reflexivity.
Defined.

Lemma collate_fn_width_mismatch_witness :
  collate_fn [(example_graph, example_features, example_labels); example_wide]
  = Raise ValueError.
Proof.
  apply (collate_fn_width_mismatch (example_graph, example_features, example_labels)
           [example_wide]).
  constructor. left. cbn. lia.
Defined.

Lemma train_mode_tests_trained_model_witness :
  returns (snd (train_and_test (L := example_libraries) (example_args "train" "GAT")
                  example_BCEWithLogitsLoss example_loader example_loader example_dataset
                  (example_state None)))
  = returns (snd (test (L := example_libraries) example_BCEWithLogitsLoss example_loader
                    (example_state None))).
Proof.
  rewrite (train_mode_tests_trained_model (L := example_libraries)
             (example_args "train" "GAT") example_BCEWithLogitsLoss example_loader
             example_loader example_dataset (example_state None) eq_refl eq_refl).
  reflexivity.
Defined.

Lemma main_file_holds_tested_model_witness :
  model_state_file (fst (main (L := example_libraries) (example_args "train" "GAT")
                              (example_state None)))
  = Some (state_dict (model (fst (main (L := example_libraries)
                                       (example_args "train" "GAT")
                                       (example_state None))))).
Proof.
  apply (main_file_holds_tested_model (L := example_libraries)
           (example_args "train" "GAT") (example_state None)).
  reflexivity.
Defined.

Lemma test_mode_file_of_other_model_witness :
  snd (main (L := example_libraries) (example_args "test" "GAT")
            (example_state (Some (BGM_state [])))) = Raise RuntimeError /\
  trace (fst (main (L := example_libraries) (example_args "test" "GAT")
                   (example_state (Some (BGM_state [])))))
  = [Torch_load (Some (BGM_state []))].
Proof.
  apply (test_mode_file_of_other_model (L := example_libraries)
           (example_args "test" "GAT") (example_state (Some (BGM_state [])))
           (BGM_state [])).
  - discriminate.
  - reflexivity.
  - reflexivity.
  - discriminate.
Defined.

Lemma main_without_epochs_witness :
  let m := construct_model (L := example_libraries) example_args_no_epochs
             example_dataset 2 2 in
  main (L := example_libraries) example_args_no_epochs (example_state None)
  = test (L := example_libraries) example_BCEWithLogitsLoss example_loader
      (@Build_State example_libraries m tt true (Some (state_dict m))
         [Torch_save (state_dict m); Torch_load (Some (state_dict m))]).
Proof.
  exact (main_without_epochs (L := example_libraries) example_args_no_epochs
           (example_state None) eq_refl ltac:(discriminate) eq_refl).
Defined.

Lemma evaluation_does_not_steer_training_witness :
  state_dict (model (fst (train (L := example_libraries) example_BCEWithLogitsLoss
                            example_loader example_dataset 6 (example_state None))))
  = state_dict (model (fst (train (L := example_libraries) example_BCEWithLogitsLoss
                              example_loader example_no_items 6 (example_state None)))) /\
  optimizer (fst (train (L := example_libraries) example_BCEWithLogitsLoss
                    example_loader example_dataset 6 (example_state None)))
  = optimizer (fst (train (L := example_libraries) example_BCEWithLogitsLoss
                      example_loader example_no_items 6 (example_state None))).
Proof.
  apply (evaluation_does_not_steer_training (L := example_libraries)
           example_BCEWithLogitsLoss example_loader example_dataset example_no_items 6
           (example_state None)); reflexivity.
Defined.

Lemma DataLoader_iter_collates_witness :
  exists batches,
    DataLoader_iter example_loader = map Ok batches /\
    concat (map (fun b => rows (sample_features b)) batches)
    = all_rows sample_features (items example_dataset) /\
    concat (map (fun b => rows (sample_labels b)) batches)
    = all_rows sample_labels (items example_dataset).
Proof.
  apply (DataLoader_iter_collates example_loader 2 2).
  - cbn. lia.
  - repeat constructor.
Defined.

Lemma failed_training_keeps_file_witness :
  train_and_test (L := example_libraries) (example_args "train" "GAT")
    (fun _ _ => Raise ValueError) example_loader example_loader example_dataset
    (example_state None)
  = (fst (train (L := example_libraries) (fun _ _ => Raise ValueError) example_loader
            example_dataset 6 (example_state None)),
     Raise ValueError) /\
  model_state_file
    (fst (train_and_test (L := example_libraries) (example_args "train" "GAT")
            (fun _ _ => Raise ValueError) example_loader example_loader example_dataset
            (example_state None)))
  = None.
Proof.
  apply (failed_training_keeps_file (L := example_libraries) (example_args "train" "GAT")
           (fun _ _ => Raise ValueError) example_loader example_loader example_dataset
           (example_state None) ValueError); reflexivity.
Defined.

Lemma test_mode_never_trains_witness :
  model_state_file (fst (main (L := example_libraries) (example_args "test" "GAT")
                              (example_state None))) = None /\
  exists evs,
    trace (fst (main (L := example_libraries) (example_args "test" "GAT")
                     (example_state None))) = [] ++ evs /\
    Forall evaluation_only evs.
Proof.
  apply (test_mode_never_trains (L := example_libraries) (example_args "test" "GAT")
           (example_state None)).
  discriminate.
Defined.
